(** * Macro Cleaner: a shallow embedding of [Core.py]

    The development follows the source file top-down: path and extension
    handling, the content-type manifest sanitizer ([_clean_content_types]),
    the macro-source extractor ([_extract_vba_code]), and the per-file
    pipeline ([clean_vba_macro]) run against an explicit model of the disk,
    the report history and the faults the library calls can raise. *)

From Stdlib Require Import ZArith NArith Ascii String List Bool Lia.
From stdpp Require Import base option list gmap strings.

Local Open Scope string_scope.
Local Open Scope list_scope.

(** ** Strings and paths *)

Module PyStr.

(** [str.lower] on the ASCII range: the only letters the extension tables
    contain.  Code units above 127 are left alone. *)
Definition lower_ascii (c : ascii) : ascii :=
  let n := nat_of_ascii c in
  if (65 <=? n)%nat && (n <=? 90)%nat then ascii_of_nat (n + 32) else c.

Fixpoint lower (s : string) : string :=
  match s with
  | EmptyString => EmptyString
  | String c s' => String (lower_ascii c) (lower s')
  end.

(** [s.rfind('.')] as an option: [None] is Python's -1. *)
Fixpoint rfind_dot (s : string) : option nat :=
  match s with
  | EmptyString => None
  | String c s' =>
      match rfind_dot s' with
      | Some i => Some (S i)
      | None => if Ascii.eqb c "." then Some 0%nat else None
      end
  end.

Fixpoint drop (n : nat) (s : string) : string :=
  match n, s with
  | O, _ => s
  | S n', String _ s' => drop n' s'
  | S _, EmptyString => EmptyString
  end.

Fixpoint take (n : nat) (s : string) : string :=
  match n, s with
  | S n', String c s' => String c (take n' s')
  | _, _ => EmptyString
  end.

End PyStr.

(** A resolved [pathlib.Path]: the directory it lives in and its final
    component. *)
Record path := Path { parent : string; name : string }.

Global Instance path_eq_dec : EqDecision path.
Proof. solve_decision. Defined.

Global Instance path_countable : Countable path.
Proof.
  refine (inj_countable' (fun p => (parent p, name p))
                         (fun q => Path (fst q) (snd q)) _).
  intros []; reflexivity.
Defined.

(** [PurePath.suffix]: the part of the name from its last dot on, provided
    the dot is neither the first nor the last character. *)
Definition suffix_of (nm : string) : string :=
  match PyStr.rfind_dot nm with
  | Some i =>
      if (0 <? i)%nat && (i <? String.length nm - 1)%nat
      then PyStr.drop i nm else EmptyString
  | None => EmptyString
  end.

(** [PurePath.stem]: the name without that suffix. *)
Definition stem_of (nm : string) : string :=
  match PyStr.rfind_dot nm with
  | Some i =>
      if (0 <? i)%nat && (i <? String.length nm - 1)%nat
      then PyStr.take i nm else nm
  | None => nm
  end.

Definition suffix (p : path) : string := suffix_of (name p).
Definition stem (p : path) : string := stem_of (name p).

(** ** Extension tables of [clean_vba_macro] *)

Definition SUPPORTED_EXTS : list string :=
  [".docm"; ".dotm"; ".xlsm"; ".xltm"; ".pptm"; ".potm"].

Definition NO_MACRO_EXTS : list string :=
  [".xlsx"; ".xlsb"; ".xltx"; ".xls";
   ".docx"; ".dotx"; ".doc";
   ".pptx"; ".potx"; ".ppsx"; ".ppt";
   ".odt"; ".ods"; ".odp"; ".rtf"; ".pdf"; ".txt"; ".csv"; ".xml"].

(** [x in xs] for a list of strings. *)
Definition py_in (x : string) (xs : list string) : bool :=
  existsb (String.eqb x) xs.

Inductive DocumentClassification := MacroCapable | MacroIncapable | Unsupported.

(** The two membership tests of [clean_vba_macro], in the order the code
    performs them, on [input_path.suffix.lower()]. *)
Definition classify_lower (suffix_lower : string) : DocumentClassification :=
  if py_in suffix_lower NO_MACRO_EXTS then MacroIncapable
  else if negb (py_in suffix_lower SUPPORTED_EXTS) then Unsupported
  else MacroCapable.

Definition classify (p : path) : DocumentClassification :=
  classify_lower (PyStr.lower (suffix p)).

(** ** Manifest sanitizer: [_clean_content_types]

    A Python [str] is a list of code points.  The manifest is read with
    [Path.read_text], i.e. in text mode with universal newlines, edited
    with [re.sub] and written back as it is (line ends as on POSIX). *)

Module Manifest.

Definition of_string (s : string) : list N :=
  map N_of_ascii (list_ascii_of_string s).

(** Text-mode reading: CR LF and a lone CR both become LF. *)
Fixpoint universal_newlines (s : list N) : list N :=
  match s with
  | [] => []
  | c :: s' =>
      if (c =? 13)%N then
        match s' with
        | d :: s'' =>
            if (d =? 10)%N then 10%N :: universal_newlines s''
            else 10%N :: universal_newlines s'
        | [] => [10%N]
        end
      else c :: universal_newlines s'
  end.

Fixpoint starts_with (p s : list N) : bool :=
  match p, s with
  | [], _ => true
  | a :: p', b :: s' => (a =? b)%N && starts_with p' s'
  | _ :: _, [] => false
  end.

(** Number of characters in front of the first ["/>"] of [s]. *)
Fixpoint find_close (s : list N) : option nat :=
  match s with
  | [] => None
  | c :: s' =>
      match s' with
      | d :: _ =>
          if (c =? 47)%N && (d =? 62)%N then Some 0%nat
          else option_map S (find_close s')
      | [] => None
      end
  end.

(** [re.sub(p + '.*?/>', '', s, flags=re.DOTALL)] for a literal prefix [p]:
    scanning from the left, every occurrence of [p] is deleted together
    with everything up to and including the first ["/>"] behind it; the
    scan resumes behind the deleted match.  [skip] counts the characters of
    the current match that are still to be dropped.  When [p] is found but
    no ["/>"] follows, neither this nor any later position can match and
    the rest of the text is kept. *)
Fixpoint sub_decl (p : list N) (skip : nat) (s : list N) : list N :=
  match s with
  | [] => []
  | c :: s' =>
      match skip with
      | S k => sub_decl p k s'
      | O =>
          if starts_with p s then
            match find_close (drop (length p) s) with
            | Some j => sub_decl p (length p + j + 1) s'
            | None => s
            end
          else c :: sub_decl p 0 s'
      end
  end.

(** The double quote, kept out of the string literals. *)
Definition dq : list N := [34%N].

Definition override_of (part : string) : list N :=
  of_string "<Override PartName=" ++ dq ++ of_string part ++ dq.

Definition default_of (ext : string) : list N :=
  of_string "<Default Extension=" ++ dq ++ of_string ext ++ dq.

(** The four patterns, without their common tail [.*?/>]. *)
Definition patterns : list (list N) :=
  [override_of "/word/vbaProject.bin";
   override_of "/xl/vbaProject.bin";
   override_of "/ppt/vbaProject.bin";
   default_of "bin"].

(** [for pattern in patterns: content = re.sub(pattern, '', content)] *)
Definition remove_declarations (content : list N) : list N :=
  fold_left (fun acc p => sub_decl p 0 acc) patterns content.

(** [\s] of a [str] pattern: the Unicode whitespace characters. *)
Definition is_space (c : N) : bool :=
  ((9 <=? c) && (c <=? 13) || (28 <=? c) && (c <=? 32)
   || (c =? 133) || (c =? 160) || (c =? 5760)
   || (8192 <=? c) && (c <=? 8202)
   || (c =? 8232) || (c =? 8233) || (c =? 8239) || (c =? 8287)
   || (c =? 12288))%N.

(** Length of the part of the leading whitespace run of [s] that ends with
    its last newline, if the run holds a newline at all. *)
Fixpoint last_newline_in_run (s : list N) : option nat :=
  match s with
  | [] => None
  | c :: s' =>
      if is_space c then
        match last_newline_in_run s' with
        | Some k => Some (S k)
        | None => if (c =? 10)%N then Some 1%nat else None
        end
      else None
  end.

(** [re.sub(r'\n\s*\n', '\n', s)]: a newline followed by a whitespace run
    holding another newline is cut down, greedily, to a single newline. *)
Fixpoint collapse_blank (skip : nat) (s : list N) : list N :=
  match s with
  | [] => []
  | c :: s' =>
      match skip with
      | S k => collapse_blank k s'
      | O =>
          if (c =? 10)%N then
            match last_newline_in_run s' with
            | Some k => 10%N :: collapse_blank k s'
            | None => c :: collapse_blank 0 s'
            end
          else c :: collapse_blank 0 s'
      end
  end.

(** The text transformation between [read_text] and [write_text]. *)
Definition sanitize (raw : list N) : list N :=
  collapse_blank 0 (remove_declarations (universal_newlines raw)).

(** Does the pattern with prefix [p] match somewhere in [s]? *)
Fixpoint has_match (p s : list N) : bool :=
  match s with
  | [] => false
  | _ :: s' =>
      (starts_with p s && bool_decide (is_Some (find_close (drop (length p) s))))
      || has_match p s'
  end.

Definition has_declaration (s : list N) : bool :=
  existsb (fun p => has_match p s) patterns.

(** Texts without carriage return: what text-mode reading produces. *)
Definition no_cr (s : list N) : Prop := Forall (fun c => c <> 13%N) s.

(** Texts in which no newline is followed by a blank line. *)
Fixpoint settled (s : list N) : Prop :=
  match s with
  | [] => True
  | c :: s' => (c = 10%N -> last_newline_in_run s' = None) /\ settled s'
  end.

End Manifest.

(** ** Files, archives and the disk *)

(** The bytes of a regular file.  Valid UTF-8 is kept decoded, as the code
    points [read_text(encoding='utf-8')] returns; [Raw] holds the byte
    strings that do not decode. *)
Inductive fdata := Utf8 (t : list N) | Raw (b : list N).

Definition utf8_len (c : N) : N :=
  if (c <? 128)%N then 1%N else if (c <? 2048)%N then 2%N
  else if (c <? 65536)%N then 3%N else 4%N.

(** [st_size] of a regular file. *)
Definition size_of (d : fdata) : N :=
  match d with
  | Utf8 t => fold_right (fun c n => (utf8_len c + n)%N) 0%N t
  | Raw b => N.of_nat (length b)
  end.

(** A zip member: a file with its bytes, or a directory entry.  Member
    names are kept as their components ([word/vbaProject.bin] is
    [["word"; "vbaProject.bin"]]). *)
Inductive entry := EFile (d : fdata) | EDir.

(** What a path on the disk holds.  The zip encoding itself belongs to
    [zipfile]: an archive is known by its member list, [Damaged] is what an
    interrupted write of an archive leaves behind (the members written
    before the fault), and [Html] is a report rendered from the given
    number of outcome records; the rendering itself ([_generate_table_rows]
    and the page template) is not part of the model.  The disk holds
    regular files only. *)
Inductive content :=
| Archive (members : list (list string * entry))
| Damaged (written : list (list string * entry))
| Plain (d : fdata)
| Html (records : nat).

Inductive exn := BadZipFile | OSError (what : string).

(** ** Macro extractor: [_extract_vba_code] *)

(** [bytes] or [str] values handed out by the macro parser. *)
Inductive pyval := PyBytes (b : list N) | PyStr (s : list N).

Definition truthy (v : option pyval) : bool :=
  match v with
  | Some (PyBytes (_ :: _)) | Some (PyStr (_ :: _)) => true
  | _ => false
  end.

(** [v.decode("latin-1")] for bytes, the string itself otherwise: Latin-1
    maps every byte to the code point of the same number. *)
Definition as_text (v : option pyval) : list N :=
  match v with
  | Some (PyBytes b) => b
  | Some (PyStr s) => s
  | None => []
  end.

Record vba_module := { code_str : option pyval; code : option pyval }.
Record vba_project := { modules : list vba_module }.

(** The observable behaviour of an opened [VBA_Parser].  An absent optional
    method is [None]; a call that raises is [inl] of the error text.
    [detect_vba_macros] tells whether that method exists and raises; the
    code calls it inside a [try] that swallows the error, so nothing
    depends on it. *)
Record parser := {
  detect_vba_macros : option bool;
  extract_macros : string + list (option pyval);
  get_vba_code_all_modules : option (string + option pyval);
  vba_projects : list vba_project;
}.

(** [getattr(module, "code_str", None) or getattr(module, "code", None)] *)
Definition module_code (m : vba_module) : option pyval :=
  if truthy (code_str m) then code_str m else code m.

Definition _extract_vba_from_parser (p : parser) : string + list (list N) :=
  match extract_macros p with
  | inl e => inl e
  | inr tuples =>
      let out := map as_text (filter (fun v => truthy v = true) tuples) in
      let out :=
        match out, get_vba_code_all_modules p with
        | [], Some (inr all_code) =>
            if truthy all_code then [as_text all_code] else out
        | _, _ => out
        end in
      let out :=
        match out with
        | [] =>
            map as_text
              (filter (fun v => truthy v = true)
                 (map module_code (concat (map modules (vba_projects p)))))
        | _ => out
        end in
      inr out
  end.

(** What [VBA_Parser] is pointed at: the document itself, or the temporary
    file holding the bytes of its macro stream. *)
Inductive vba_source := WholeDocument (p : path) | StreamFile (d : fdata).

(** The text [_extract_vba_code] returns: the three placeholders, or the
    collected code bodies (joined with the separator line). *)
Inductive vba_text :=
| NeedOletools
| NoVisibleCode
| ExtractFailed (e : string)
| Code (parts : list (list N)).

Inductive event :=
| EvParse (src : vba_source)
| EvOpenZip
| EvMkstemp
| EvUnlinkTemp.

Definition _VBA_BIN_PATHS : list (list string) :=
  [["word"; "vbaProject.bin"]; ["xl"; "vbaProject.bin"]; ["ppt"; "vbaProject.bin"]].

Definition component_eqb (a b : list string) : bool := bool_decide (a = b).

(** [zf.read(name)]: the bytes of the last file member of that name. *)
Fixpoint zip_read (nm : list string) (ms : list (list string * entry))
  : option fdata :=
  match ms with
  | [] => None
  | (n, e) :: ms' =>
      match zip_read nm ms' with
      | Some d => Some d
      | None =>
          match e with
          | EFile d => if component_eqb n nm then Some d else None
          | EDir => None
          end
      end
  end.

(** The first of [_VBA_BIN_PATHS] that is in [zf.namelist()]. *)
Definition first_stream (ms : list (list string * entry))
  : option (list string * fdata) :=
  list_find (fun nm => is_Some (zip_read nm ms)) _VBA_BIN_PATHS
    ≫= fun '(_, nm) => fmap (pair nm) (zip_read nm ms).

Definition show (out : list (list N)) : vba_text :=
  match out with [] => NoVisibleCode | _ => Code out end.

(** [olevba] is [None] when importing oletools fails; otherwise it gives,
    for every source, the error text [VBA_Parser(...)] raises or the parser
    it returns.  The second component is the trace of what was attempted. *)
Definition _extract_vba_code
    (olevba : option (vba_source -> string + parser))
    (disk : gmap path content) (file_path : path) : vba_text * list event :=
  match olevba with
  | None => (NeedOletools, [])
  | Some VBA_Parser =>
      let tr := [EvParse (WholeDocument file_path)] in
      match VBA_Parser (WholeDocument file_path) with
      | inl e => (ExtractFailed e, tr)
      | inr whole =>
          match _extract_vba_from_parser whole with
          | inl e => (ExtractFailed e, tr)
          | inr ((_ :: _) as out) => (Code out, tr)
          | inr [] =>
              match disk !! file_path with
              | None => (NoVisibleCode, tr)
              | Some (Archive ms) =>
                  match first_stream ms with
                  | None => (NoVisibleCode, tr ++ [EvOpenZip])
                  | Some (_, bin) =>
                      let tr := tr ++ [EvOpenZip; EvMkstemp;
                                       EvParse (StreamFile bin); EvUnlinkTemp] in
                      match VBA_Parser (StreamFile bin) with
                      | inl _ => (NoVisibleCode, tr)
                      | inr p =>
                          match _extract_vba_from_parser p with
                          | inl _ => (NoVisibleCode, tr)
                          | inr out => (show out, tr)
                          end
                      end
                  end
              | Some _ => (NoVisibleCode, tr ++ [EvOpenZip])
              end
          end
      end
  end.

(** ** The working directory of one run *)

(** The directory [extract_path] as a finite map from relative paths to
    what they hold.  The empty path is [extract_path] itself, which does
    not exist before the first member is extracted. *)
Inductive node := File (d : fdata) | Folder.

(** [ZipFile._extract_member] builds the target from the member name
    without its empty, [.] and [..] components (so also without a leading
    slash); this is the POSIX case, where no further characters are
    replaced. *)
Definition invalid_path_part (x : string) : bool :=
  String.eqb x EmptyString || String.eqb x "." || String.eqb x "..".

Definition normalise (nm : list string) : list string :=
  List.filter (fun x => negb (invalid_path_part x)) nm.

(** The proper ancestors of a relative path, outermost first, beginning
    with [extract_path] itself. *)
Fixpoint parents (p : list string) : list (list string) :=
  match p with
  | [] => []
  | x :: p' => [] :: map (cons x) (parents p')
  end.

(** [if not os.path.isdir(targetpath): os.mkdir(targetpath)] for a
    directory member: fails on a regular file. *)
Definition mkdir (q : list string) (t : gmap (list string) node)
  : exn + gmap (list string) node :=
  match t !! q with
  | Some (File _) => inl (OSError "FileExistsError")
  | _ => inr (<[q := Folder]> t)
  end.

(** [if upperdirs and not os.path.exists(upperdirs):
    os.makedirs(upperdirs)], and what the missing of it means for the
    [os.mkdir] or [open] that follows: the ancestors that do not exist are
    created, and an ancestor that is a regular file makes the extraction
    of the member fail. *)
Fixpoint makedirs (qs : list (list string)) (t : gmap (list string) node)
  : exn + gmap (list string) node :=
  match qs with
  | [] => inr t
  | q :: qs' =>
      match t !! q with
      | Some (File _) => inl (OSError "NotADirectoryError")
      | _ => makedirs qs' (<[q := Folder]> t)
      end
  end.

(** [ZipFile._extract_member] of one member: the target is the normalised
    name; parent directories first, then the member itself; a later member
    that lands on the same path overwrites.  ([extractall] goes through
    the names and looks each one up again, so that of several members with
    one name the last is written each time: the directory that results is
    the same.) *)
Definition extract_member (m : list string * entry)
    (t : gmap (list string) node) : exn + gmap (list string) node :=
  let target := normalise (fst m) in
  match makedirs (parents target) t with
  | inl e => inl e
  | inr t' =>
      match snd m with
      | EDir => mkdir target t'
      | EFile d =>
          match t' !! target with
          | Some Folder => inl (OSError "IsADirectoryError")
          | _ => inr (<[target := File d]> t')
          end
      end
  end.

Fixpoint extractall (ms : list (list string * entry))
    (t : gmap (list string) node) : exn + gmap (list string) node :=
  match ms with
  | [] => inr t
  | m :: ms' =>
      match extract_member m t with
      | inl e => inl e
      | inr t' => extractall ms' t'
      end
  end.

(** [temp_dir = tempfile.mkdtemp(...)] and
    [with zipfile.ZipFile(input_path, 'r') as zip_ref:
    zip_ref.extractall(extract_path)].  [fault] is an error of the
    operating system in these steps: the temporary directory cannot be
    created or written, or the input cannot be opened or read.  The
    members' own clashes apart, it is the only way for an archive not to
    unpack; a file that can be read and is no archive is a [BadZipFile]. *)
Definition unzip (fault : option string) (c : content)
  : exn + gmap (list string) node :=
  match fault with
  | Some why => inl (OSError why)
  | None =>
      match c with
      | Archive ms => extractall ms ∅
      | _ => inl BadZipFile
      end
  end.

(** What a member is once extracted. *)
Definition node_of (en : entry) : node :=
  match en with EFile d => File d | EDir => Folder end.

(** The file that extraction leaves at path [q] of the working directory:
    the bytes of the last file member whose normalised name is [q].  (For
    an archive whose member names are normal, this is [zip_read].) *)
Fixpoint zip_at (q : list string) (ms : list (list string * entry))
  : option fdata :=
  match ms with
  | [] => None
  | (n, e) :: ms' =>
      match zip_at q ms' with
      | Some d => Some d
      | None =>
          match e with
          | EFile d => if component_eqb (normalise n) q then Some d else None
          | EDir => None
          end
      end
  end.

(** No member name has an empty, [.] or [..] component: the names Office
    applications (and [_repack_docx]) write. *)
Definition normal_names (ms : list (list string * entry)) : Prop :=
  Forall (fun m => normalise (fst m) = fst m) ms.

(** [Path.exists] inside the working directory. *)
Definition exists_in (t : gmap (list string) node) (p : list string) : bool :=
  bool_decide (is_Some (t !! p)).

Inductive doc_type := word | excel | ppt.

Definition vba_paths (d : doc_type) : list string :=
  match d with
  | word => ["word"; "vbaProject.bin"]
  | excel => ["xl"; "vbaProject.bin"]
  | ppt => ["ppt"; "vbaProject.bin"]
  end.

(** Step 2 of [clean_vba_macro]: the first family directory that exists. *)
Definition detect_doc_type (t : gmap (list string) node) : option doc_type :=
  if exists_in t ["word"] then Some word
  else if exists_in t ["xl"] then Some excel
  else if exists_in t ["ppt"] then Some ppt
  else None.

(** [vba_path.parent / (vba_path.name + ".rels")] *)
Definition rels_of (d : doc_type) : list string :=
  match d with
  | word => ["word"; "vbaProject.bin.rels"]
  | excel => ["xl"; "vbaProject.bin.rels"]
  | ppt => ["ppt"; "vbaProject.bin.rels"]
  end.

(** [Path.unlink]: removes a regular file, raises on a directory. *)
Definition unlink (p : list string) (t : gmap (list string) node)
  : exn + gmap (list string) node :=
  match t !! p with
  | Some (File _) => inr (delete p t)
  | Some Folder => inl (OSError "IsADirectoryError")
  | None => inl (OSError "FileNotFoundError")
  end.

(** [vba_path.stat().st_size]; a directory reports the size of its inode. *)
Definition node_size (n : node) : N :=
  match n with File d => size_of d | Folder => 4096%N end.

Definition content_types_path : list string := ["[Content_Types].xml"].

(** [_clean_content_types]: every error (missing file, a directory, bytes
    that are not UTF-8) is swallowed and leaves the directory as it was. *)
Definition _clean_content_types (p : list string)
    (t : gmap (list string) node) : gmap (list string) node :=
  match t !! p with
  | Some (File (Utf8 content)) => <[p := File (Utf8 (Manifest.sanitize content))]> t
  | _ => t
  end.

(** The members [_repack_docx] writes: every regular file below the
    working directory ([rglob('*')] does not yield the directory itself),
    under its relative path. *)
Definition packed (t : gmap (list string) node)
  : list (list string * entry) :=
  omap (fun kv => match fst kv, snd kv with
                  | _ :: _, File d => Some (fst kv, EFile d)
                  | _, _ => None
                  end) (map_to_list t).

(** ** Outcome records *)

Inductive status_key := status_success | status_fail.

(** The catalog entries [clean_vba_macro] writes into [message], with the
    values substituted into their placeholders; [msg_empty] is the initial
    empty string. *)
Inductive msg :=
| msg_empty
| msg_file_not_found
| msg_unsupported_format (suffix : string)
| msg_invalid_format
| msg_unknown_doc_type
| msg_no_macro_skip
| msg_no_macro_format
| msg_save_failed
| msg_macro_cleared_replace
| msg_macro_cleared (size : N)
| msg_no_macro
| msg_exception (e : exn).

(** The [report_data] dictionary.  [original_md5] and [output_md5] hold the
    measured content itself as an ideal digest ([None] is the empty string
    of an inaccessible file); the creation and modification times that
    travel with them are readings of the file-system clock and are left
    out. *)
Record report := Report {
  file_name : string;
  file_path : path;
  file_size : N;
  status : status_key;
  vba_found : bool;
  vba_size : N;
  vba_code : option vba_text;
  output_path : option path;
  message : msg;
  timestamp : string;
  original_md5 : option content;
  output_md5 : option content;
  is_english : bool;
}.

Definition set_file_size (v : N) (r : report) : report :=
  Report (file_name r) (file_path r) v (status r) (vba_found r) (vba_size r)
    (vba_code r) (output_path r) (message r) (timestamp r) (original_md5 r)
    (output_md5 r) (is_english r).
Definition set_status (v : status_key) (r : report) : report :=
  Report (file_name r) (file_path r) (file_size r) v (vba_found r) (vba_size r)
    (vba_code r) (output_path r) (message r) (timestamp r) (original_md5 r)
    (output_md5 r) (is_english r).
Definition set_vba_found (size : N) (r : report) : report :=
  Report (file_name r) (file_path r) (file_size r) (status r) true size
    (vba_code r) (output_path r) (message r) (timestamp r) (original_md5 r)
    (output_md5 r) (is_english r).
Definition set_vba_code (code : vba_text) (r : report) : report :=
  Report (file_name r) (file_path r) (file_size r) (status r) (vba_found r)
    (vba_size r) (Some code) (output_path r) (message r) (timestamp r)
    (original_md5 r) (output_md5 r) (is_english r).
Definition set_output (p : path) (md5 : option content) (r : report) : report :=
  Report (file_name r) (file_path r) (file_size r) (status r) (vba_found r)
    (vba_size r) (vba_code r) (Some p) (message r) (timestamp r)
    (original_md5 r) md5 (is_english r).
Definition set_message (v : msg) (r : report) : report :=
  Report (file_name r) (file_path r) (file_size r) (status r) (vba_found r)
    (vba_size r) (vba_code r) (output_path r) v (timestamp r) (original_md5 r)
    (output_md5 r) (is_english r).
Definition set_original_md5 (v : option content) (r : report) : report :=
  Report (file_name r) (file_path r) (file_size r) (status r) (vba_found r)
    (vba_size r) (vba_code r) (output_path r) (message r) (timestamp r) v
    (output_md5 r) (is_english r).

(** ** Environment and process state *)

(** How the write of a file goes wrong, if it does: the output cannot be
    opened for writing, or an error strikes after [k] units (members, for
    an archive) have been written. *)
Inductive write_fault := WriteOk | OpenDenied | FailsAfter (k : nat).

(** Everything a run reads from outside: the clock, the current directory,
    the size [os.stat] reports, the macro parser, and the faults of the
    library calls.  [meta_fault k] says that the [k]-th reading of a file
    for its digest fails (0 is the reading of the original, 1 that of the
    output); [copy_fault] is the fault of the backup copy. *)
Record env := Env {
  now_stamp : string;
  now_file : string;
  cwd : string;
  st_size : content -> N;
  olevba : option (vba_source -> string + parser);
  extract_fault : option string;
  meta_fault : nat -> bool;
  copy_fault : write_fault;
  repack_fault : write_fault;
  report_fault : nat -> bool;
}.

(** The disk and the module globals.  [_report_history] is a list of
    references into [heap], where the [report_data] dictionaries live: the
    list shares each dictionary with the run that is still filling it.
    [report_writes] counts the report files written so far and indexes
    [report_fault]. *)
Record state := State {
  disk : gmap path content;
  heap : gmap nat report;
  _report_history : list nat;
  _last_vba_size : N;
  report_writes : nat;
}.

Definition with_disk (d : gmap path content) (s : state) : state :=
  State d (heap s) (_report_history s) (_last_vba_size s) (report_writes s).
Definition with_heap (h : gmap nat report) (s : state) : state :=
  State (disk s) h (_report_history s) (_last_vba_size s) (report_writes s).
Definition with_history (l : list nat) (s : state) : state :=
  State (disk s) (heap s) l (_last_vba_size s) (report_writes s).
Definition with_last_vba_size (n : N) (s : state) : state :=
  State (disk s) (heap s) (_report_history s) n (report_writes s).
Definition with_report_writes (n : nat) (s : state) : state :=
  State (disk s) (heap s) (_report_history s) (_last_vba_size s) n.

(** A call either returns a value or raises. *)
Inductive outcome (A : Type) := Return (a : A) | Raise (e : exn).
Arguments Return {A} a.
Arguments Raise {A} e.

Definition M (A : Type) : Type := state -> state * outcome A.

Definition ret {A} (a : A) : M A := fun s => (s, Return a).
Definition raise {A} (e : exn) : M A := fun s => (s, Raise e).
Definition bind {A B} (m : M A) (k : A -> M B) : M B :=
  fun s => match m s with
           | (s', Return a) => k a s'
           | (s', Raise e) => (s', Raise e)
           end.
Definition get : M state := fun s => (s, Return s).
Definition modify (f : state -> state) : M unit := fun s => (f s, Return tt).
Definition lift {A} (r : exn + A) : M A :=
  match r with inl e => raise e | inr a => ret a end.

(** [try: m except Exception as e: h e] *)
Definition try_except {A} (m : M A) (h : exn -> M A) : M A :=
  fun s => match m s with
           | (s', Return a) => (s', Return a)
           | (s', Raise e) => h e s'
           end.

Notation "'let*' x ':=' m 'in' k" := (bind m (fun x => k))
  (at level 10, x name, m at level 100, k at level 200).
Notation "m ';;' k" := (bind m (fun _ => k))
  (at level 100, k at level 200, right associativity).

(** ** The pipeline: [clean_vba_macro] *)

(** [report_data[...] = ...] on the dictionary referenced by [rid]. *)
Definition update (rid : nat) (f : report -> report) : M unit :=
  modify (fun s => with_heap (alter f rid (heap s)) s).

Definition report_path (e : env) : path :=
  Path (cwd e) (String.append (now_file e) "_macro_cleaner_report.html").

(** [_generate_html_report(data)]: nothing for an empty list, otherwise
    the report rendered from [data] is written into the current directory,
    which can fail. *)
Definition _generate_html_report (e : env) (data : list nat) : M unit :=
  fun s =>
    match data with
    | [] => (s, Return tt)
    | _ :: _ =>
        let k := report_writes s in
        let s' := with_report_writes (S k) s in
        if report_fault e k then (s', Raise (OSError "report not written"))
        else (with_disk (<[report_path e := Html (length data)]> (disk s')) s',
              Return tt)
    end.

(** [_save_report]: the records are appended to the history, and the
    report, if asked for, is rendered from the whole history. *)
Definition _save_report (e : env) (current_data : list nat)
    (generate_report : bool) : M unit :=
  modify (fun s => with_history (_report_history s ++ current_data) s) ;;
  if generate_report
  then (let* s := get in _generate_html_report e (_report_history s))
  else ret tt.

(** [_get_file_meta(path)['md5']]: the digest of the file, or the empty
    string when the path does not exist or the file cannot be read. *)
Definition _get_file_meta (e : env) (k : nat) (d : gmap path content) (p : path)
  : option content :=
  if meta_fault e k then None else d !! p.

(** [input_path.parent / f"{input_path.stem}_backup{input_path.suffix}"] *)
Definition backup_path (p : path) : path :=
  Path (parent p) (String.append (stem p) (String.append "_backup" (suffix p))).

(** What is left of a file when the writing of it stops after [k] units:
    for an archive, an incomplete archive. *)
Definition truncated (k : nat) (c : content) : content :=
  match c with
  | Archive ms => Damaged (take k ms)
  | Damaged ms => Damaged (take k ms)
  | Plain (Utf8 t) => Plain (Utf8 (take k t))
  | Plain (Raw b) => Plain (Raw (take k b))
  | Html n => Html (Nat.min k n)
  end.

(** [shutil.copy2]: the destination cannot be opened and is not created,
    or an error strikes during the copy (say, the disk is full) and leaves
    a truncated destination. *)
Definition copy2 (e : env) (src dst : path) : M unit :=
  fun s =>
    match disk s !! src with
    | None => (s, Raise (OSError "FileNotFoundError"))
    | Some c =>
        match copy_fault e with
        | OpenDenied => (s, Raise (OSError "PermissionError"))
        | FailsAfter k =>
            (with_disk (<[dst := truncated k c]> (disk s)) s,
             Raise (OSError "write failed"))
        | WriteOk => (with_disk (<[dst := c]> (disk s)) s, Return tt)
        end
    end.

(** [_repack_docx]: [ZipFile(output_path, 'w')] truncates the output as
    soon as it is opened, then the members are written one by one. *)
Definition _repack_docx (e : env) (source_dir : gmap (list string) node)
    (output_path : path) : M unit :=
  match repack_fault e with
  | OpenDenied => raise (OSError "PermissionError")
  | FailsAfter k =>
      modify (fun s => with_disk
                (<[output_path := Damaged (take k (packed source_dir))]> (disk s)) s) ;;
      raise (OSError "write failed")
  | WriteOk =>
      modify (fun s => with_disk
                (<[output_path := Archive (packed source_dir)]> (disk s)) s)
  end.

(** Step 3: if the macro stream of the detected family exists, record its
    size and source text and delete it and its [.rels] neighbour. *)
Definition strip_vba (e : env) (input_path : path) (rid : nat)
    (extracted : gmap (list string) node) (dt : doc_type)
  : M (gmap (list string) node * bool) :=
  match extracted !! vba_paths dt with
  | None => ret (extracted, false)
  | Some n =>
      let vba_size := node_size n in
      let* s := get in
      update rid (set_vba_code
                    (fst (_extract_vba_code (olevba e) (disk s) input_path))) ;;
      let* t1 := lift (unlink (vba_paths dt) extracted) in
      let* t2 := (if exists_in t1 (rels_of dt)
                  then lift (unlink (rels_of dt) t1) else ret t1) in
      update rid (set_vba_found vba_size) ;;
      modify (with_last_vba_size vba_size) ;;
      ret (t2, true)
  end.

(** Steps 4 to 8, once the working directory has been stripped. *)
Definition finish (e : env) (input_path : path)
    (replace_original generate_report : bool) (rid : nat)
    (tree : gmap (list string) node) (vba_found : bool) : M Z :=
  if negb vba_found then
    update rid (set_status status_success) ;;
    update rid (set_message msg_no_macro_skip) ;;
    let* s := get in
    update rid (set_output input_path (_get_file_meta e 1 (disk s) input_path)) ;;
    _save_report e [rid] generate_report ;;
    ret 0%Z
  else
    let tree := (if exists_in tree content_types_path
                 then _clean_content_types content_types_path tree else tree) in
    (if replace_original
     then copy2 e input_path (backup_path input_path) else ret tt) ;;
    let output_path := input_path in
    _repack_docx e tree output_path ;;
    let* s := get in
    if negb (bool_decide (is_Some (disk s !! output_path))) then
      update rid (set_message msg_save_failed) ;;
      _save_report e [rid] generate_report ;;
      ret 0%Z
    else
      update rid (set_status status_success) ;;
      update rid (set_output output_path (_get_file_meta e 1 (disk s) output_path)) ;;
      if replace_original && vba_found then
        update rid (set_message msg_macro_cleared_replace) ;;
        _save_report e [rid] generate_report ;;
        ret 1%Z
      else if vba_found then
        let* s := get in
        update rid (set_message
                      (msg_macro_cleared
                         (from_option vba_size 0%N (heap s !! rid)))) ;;
        _save_report e [rid] generate_report ;;
        ret 1%Z
      else
        update rid (set_message msg_no_macro) ;;
        _save_report e [rid] generate_report ;;
        ret 0%Z.

(** The body of the [try] block. *)
Definition clean_try (e : env) (input_path : path)
    (replace_original generate_report : bool) (rid : nat) : M Z :=
  let* s := get in
  match disk s !! input_path with
  | None =>
      update rid (set_message msg_file_not_found) ;;
      _save_report e [rid] generate_report ;;
      ret 0%Z
  | Some original =>
      let suffix_lower := PyStr.lower (suffix input_path) in
      if py_in suffix_lower NO_MACRO_EXTS then
        update rid (set_file_size (st_size e original)) ;;
        let orig_meta := _get_file_meta e 0 (disk s) input_path in
        update rid (set_original_md5 orig_meta) ;;
        update rid (set_status status_success) ;;
        update rid (set_message msg_no_macro_format) ;;
        update rid (set_output input_path orig_meta) ;;
        _save_report e [rid] generate_report ;;
        ret 0%Z
      else if negb (py_in suffix_lower SUPPORTED_EXTS) then
        update rid (set_message (msg_unsupported_format (suffix input_path))) ;;
        _save_report e [rid] generate_report ;;
        ret 0%Z
      else
        update rid (set_file_size (st_size e original)) ;;
        update rid (set_original_md5 (_get_file_meta e 0 (disk s) input_path)) ;;
        match unzip (extract_fault e) original with
        | inl BadZipFile =>
            update rid (set_message msg_invalid_format) ;;
            _save_report e [rid] generate_report ;;
            ret 0%Z
        | inl err => raise err
        | inr extracted =>
            match detect_doc_type extracted with
            | None =>
                update rid (set_message msg_unknown_doc_type) ;;
                _save_report e [rid] generate_report ;;
                ret 0%Z
            | Some dt =>
                let* stripped := strip_vba e input_path rid extracted dt in
                finish e input_path replace_original generate_report rid
                  (fst stripped) (snd stripped)
            end
        end
  end.

Definition new_report (e : env) (input_path : path) (is_english : bool)
  : report :=
  {| file_name := name input_path; file_path := input_path; file_size := 0;
     status := status_fail; vba_found := false; vba_size := 0;
     vba_code := None; output_path := None; message := msg_empty;
     timestamp := now_stamp e; original_md5 := None; output_md5 := None;
     is_english := is_english |}.

(** [clean_vba_macro].  [file_path] is the resolved input path.  The
    temporary directory removed by the [finally] clause lives outside the
    modelled disk, so the clause has nothing to do here. *)
Definition clean_vba_macro (e : env) (file_path : path)
    (replace_original generate_report is_english : bool) : M Z :=
  modify (with_last_vba_size 0) ;;
  let* s := get in
  let rid := fresh (dom (heap s)) in
  modify (fun s => with_heap
            (<[rid := new_report e file_path is_english]> (heap s)) s) ;;
  try_except
    (clean_try e file_path replace_original generate_report rid)
    (fun err =>
       update rid (set_message (msg_exception err)) ;;
       _save_report e [rid] generate_report ;;
       ret 0%Z).

(** [get_last_vba_size] *)
Definition get_last_vba_size (s : state) : N := _last_vba_size s.

(** The outcome records the history refers to, in order. *)
Definition history (s : state) : list report :=
  omap (fun rid => heap s !! rid) (_report_history s).

(** ** Vocabulary of the statements *)

(** [wp m Q s]: running [m] from [s] ends in a state and an outcome that
    satisfy [Q]. *)
Definition wp {A} (m : M A) (Q : state -> outcome A -> Prop) (s : state) : Prop :=
  Q (fst (m s)) (snd (m s)).

(** The report file of this run, if one is asked for, gets written. *)
Definition report_written (e : env) (generate_report : bool) (s : state) : Prop :=
  generate_report = true -> report_fault e (report_writes s) = false.

(** The container has no file member that extraction leaves at one of the
    three stream paths. *)
Definition no_stream (ms : list (list string * entry)) : Prop :=
  forall nm, In nm _VBA_BIN_PATHS -> zip_at nm ms = None.

(** The working directory [t] is [g] after steps 3 and 5: the stream of the
    family [dt] and its [.rels] neighbour are gone, the manifest, if it is
    UTF-8 text, is sanitized, and every other path is as it was. *)
Definition stripped (g : gmap (list string) node) (dt : doc_type)
    (t : gmap (list string) node) : Prop :=
  (t !! vba_paths dt = None) /\
  (t !! rels_of dt = None) /\
  (forall q, q <> vba_paths dt -> q <> rels_of dt -> q <> content_types_path ->
             t !! q = g !! q) /\
  (t !! content_types_path
   = match g !! content_types_path with
     | Some (File (Utf8 c)) => Some (File (Utf8 (Manifest.sanitize c)))
     | o => o
     end).

(** The input [c] unpacks into [g], whose first family directory is that of
    [dt], with a regular file [d] at the stream path of [dt]; the [.rels]
    neighbour of the stream, if there is one, is a regular file too: step 3
    finds the stream and removes it. *)
Definition stream_found (e : env) (c : content) (g : gmap (list string) node)
    (dt : doc_type) (d : fdata) : Prop :=
  (unzip (extract_fault e) c = inr g) /\
  (detect_doc_type g = Some dt) /\
  (g !! vba_paths dt = Some (File d)) /\
  (g !! rels_of dt <> Some Folder).

(** [t] is the directory a call on the input [c] repacks: [c] unpacked,
    without the stream of the detected family. *)
Definition repacked_from (e : env) (c : content)
    (t : gmap (list string) node) : Prop :=
  exists g dt d, stream_found e c g dt d /\ stripped g dt t.

(** The trace shows the fallback: the document was opened as a zip. *)
Definition fallback_attempted (tr : list event) : bool :=
  existsb (fun ev => match ev with EvOpenZip => true | _ => false end) tr.

(** The trace shows that the parser was run on a stream file. *)
Definition stream_parsed (tr : list event) : bool :=
  existsb (fun ev => match ev with EvParse (StreamFile _) => true | _ => false end) tr.

(** ** Sample inputs *)

Module Sample.

Definition stream : fdata := Raw [208; 207; 17; 224; 161; 177; 26; 225]%N.

Definition manifest : fdata :=
  Utf8 (Manifest.of_string "<Types>" ++
        Manifest.default_of "bin" ++ Manifest.of_string " ContentType=vba/>" ++
        Manifest.default_of "xml" ++ Manifest.of_string " ContentType=xml/>" ++
        Manifest.of_string "</Types>").

(** A Word document with a macro stream, and a stray one under [xl/]. *)
Definition members : list (list string * entry) :=
  [ (["[Content_Types].xml"], EFile manifest);
    (["word"; "document.xml"], EFile (Utf8 (Manifest.of_string "<doc/>")));
    (["word"; "vbaProject.bin"], EFile stream);
    (["xl"; "vbaProject.bin"], EFile stream) ].

Definition with_macro : content := Archive members.

(** The same document, unpacked. *)
Definition unpacked : gmap (list string) node :=
  match extractall members ∅ with
  | inr t => t
  | inl _ => ∅
  end.

(** A workbook without a macro stream. *)
Definition clean_members : list (list string * entry) :=
  [ (["[Content_Types].xml"], EFile manifest);
    (["xl"; "workbook.xml"], EFile (Utf8 (Manifest.of_string "<wb/>"))) ].

Definition without_macro : content := Archive clean_members.

(** A file that is no zip at all. *)
Definition sheet : content := Plain (Utf8 (Manifest.of_string "a,b,c")).

(** [<Default Exte<Default Extension="bin"/>nsion="bin"/>] *)
Definition nested : list N :=
  Manifest.of_string "<Default Exte" ++
  Manifest.default_of "bin" ++ Manifest.of_string "/>" ++
  Manifest.of_string "nsion=" ++ Manifest.dq ++ Manifest.of_string "bin" ++
  Manifest.dq ++ Manifest.of_string "/>".

(** Working directories that hold nothing but a manifest. *)
Definition manifest_dir : gmap (list string) node :=
  {[ content_types_path := File manifest ]}.
Definition nested_dir : gmap (list string) node :=
  {[ content_types_path := File (Utf8 nested) ]}.

(** A parser with one module of code. *)
Definition one_module : parser :=
  {| detect_vba_macros := Some false;
     extract_macros := inr [Some (PyStr (Manifest.of_string "Sub Auto_Open()"))];
     get_vba_code_all_modules := None;
     vba_projects := [] |}.

(** A parser that finds nothing, and whose [detect_vba_macros] raises. *)
Definition no_code : parser :=
  {| detect_vba_macros := Some true;
     extract_macros := inr [None; Some (PyBytes [])];
     get_vba_code_all_modules := Some (inl "not an OLE file");
     vba_projects := [] |}.

(** An olevba that sees no macros in OOXML documents but reads stream
    files. *)
Definition silent (src : vba_source) : string + parser :=
  match src with
  | WholeDocument _ => inr no_code
  | StreamFile _ => inr one_module
  end.

(** An olevba that cannot open OOXML documents but reads stream files. *)
Definition throwing (src : vba_source) : string + parser :=
  match src with
  | WholeDocument _ => inl "FileOpenError"
  | StreamFile _ => inr one_module
  end.

Definition docm : path := Path "/home/u" "letter.docm".
Definition xlsm : path := Path "/home/u" "report.xlsm".
Definition xlsx : path := Path "/home/u" "invoice.xlsx".
Definition missing : path := Path "/home/u" "gone.docm".

(** An environment in which nothing goes wrong and oletools is absent. *)
Definition calm : env :=
  {| now_stamp := "2026-01-01 00:00:00"; now_file := "2026-01-01_00-00-00";
     cwd := "/home/u"; st_size := fun _ => 1000%N; olevba := None;
     extract_fault := None; meta_fault := fun _ => false;
     copy_fault := WriteOk; repack_fault := WriteOk;
     report_fault := fun _ => false |}.

(** The same, but the disk fills up after one member of the repacked
    archive has been written. *)
Definition disk_full : env :=
  {| now_stamp := now_stamp calm; now_file := now_file calm; cwd := cwd calm;
     st_size := st_size calm; olevba := None; extract_fault := None;
     meta_fault := fun _ => false;
     copy_fault := WriteOk; repack_fault := FailsAfter 1;
     report_fault := fun _ => false |}.

(** The same as [calm], but the current directory cannot be written, so
    that no report file can be created. *)
Definition read_only_cwd : env :=
  {| now_stamp := now_stamp calm; now_file := now_file calm; cwd := cwd calm;
     st_size := st_size calm; olevba := None; extract_fault := None;
     meta_fault := fun _ => false;
     copy_fault := WriteOk; repack_fault := WriteOk;
     report_fault := fun _ => true |}.

(** The same as [calm], but only the first report write fails. *)
Definition flaky_cwd : env :=
  {| now_stamp := now_stamp calm; now_file := now_file calm; cwd := cwd calm;
     st_size := st_size calm; olevba := None; extract_fault := None;
     meta_fault := fun _ => false;
     copy_fault := WriteOk; repack_fault := WriteOk;
     report_fault := fun k => Nat.eqb k 0 |}.

Definition start : state :=
  {| disk := {[ docm := with_macro; xlsm := without_macro;
                xlsx := sheet ]};
     heap := ∅; _report_history := []; _last_vba_size := 0;
     report_writes := 0 |}.

End Sample.

(** ** Beyond one call: vocabulary, the batch worker and the scanner *)

(** The record says that a macro was found and the file was saved. *)
Definition found_and_saved (r : report) : bool :=
  match status r with
  | status_success => vba_found r
  | status_fail => false
  end.

(** Every reference of the history points to a dictionary on the heap. *)
Definition allocated (s : state) : Prop :=
  forall j, In j (_report_history s) -> is_Some (heap s !! j).

(** ** The batch worker of the front end: [CleanMacroWorker.run]

    One job is a path together with the environment its call meets.  The
    progress signals are left out; the pair returned is what
    [finished_result] emits. *)
Fixpoint run_batch (jobs : list (env * path))
    (replace_original generate_report is_english : bool)
    (sun_count : Z) (total_vba_size : N) : M (Z * N) :=
  match jobs with
  | [] => ret (sun_count, total_vba_size)
  | (e, file_path) :: rest =>
      let* n := clean_vba_macro e file_path replace_original generate_report
                  is_english in
      let* s := get in
      run_batch rest replace_original generate_report is_english
        (sun_count + n)%Z (total_vba_size + get_last_vba_size s)%N
  end.

Definition CleanMacroWorker_run (jobs : list (env * path))
    (replace_original generate_report is_english : bool) : M (Z * N) :=
  run_batch jobs replace_original generate_report is_english 0%Z 0%N.

(** [sum(item["vba_size"] for item in data)] *)
Definition total_size (rs : list report) : N :=
  fold_right (fun r n => (vba_size r + n)%N) 0%N rs.

(** [sum(1 for item in data if ...)] for the records that are found and
    saved. *)
Definition saved_count (rs : list report) : Z :=
  Z.of_nat (length (filter (fun r => found_and_saved r = true) rs)).

(** A directory tree as extraction builds it: everything lies below
    directories, and no path has an empty, [.] or [..] component. *)
Definition well_formed (t : gmap (list string) node) : Prop :=
  (forall k n q, t !! k = Some n -> q ∈ parents k -> t !! q = Some Folder) /\
  (forall k n, t !! k = Some n -> normalise k = k).

(** The families at whose stream path extraction leaves a file. *)
Definition has_stream (ms : list (list string * entry)) (dt : doc_type) : bool :=
  match zip_at (vba_paths dt) ms with Some _ => true | None => false end.

Definition stream_families (ms : list (list string * entry)) : list doc_type :=
  List.filter (has_stream ms) [word; excel; ppt].

(** A workbook with one macro stream, its relationship part and a sheet. *)
Module Budget.

Definition members : list (list string * entry) :=
  [ (["[Content_Types].xml"], EFile Sample.manifest);
    (["xl"; "workbook.xml"], EFile (Utf8 (Manifest.of_string "<wb/>")));
    (["xl"; "vbaProject.bin"], EFile Sample.stream);
    (["xl"; "vbaProject.bin.rels"], EFile (Utf8 (Manifest.of_string "<rels/>"))) ].

Definition file : path := Path "/home/u" "budget.xlsm".

Definition start : state :=
  {| disk := {[ file := Archive members ]};
     heap := ∅; _report_history := []; _last_vba_size := 0;
     report_writes := 0 |}.

End Budget.

(** A Word document whose macro stream is stored under a name with a
    [.] component: no member is named [word/vbaProject.bin], yet extraction
    leaves the stream at that path. *)
Module Dotted.

Definition members : list (list string * entry) :=
  [ (["[Content_Types].xml"], EFile Sample.manifest);
    (["word"; "document.xml"], EFile (Utf8 (Manifest.of_string "<doc/>")));
    (["word"; "."; "vbaProject.bin"], EFile Sample.stream) ].

Definition file : path := Path "/home/u" "dotted.docm".

Definition start : state :=
  {| disk := {[ file := Archive members ]};
     heap := ∅; _report_history := []; _last_vba_size := 0;
     report_writes := 0 |}.

End Dotted.

(** ** The folder scanner of the front end: [ScanFolderWorker.run] *)

Definition OFFICE_EXTENSIONS : list string :=
  [".docm"; ".dotm"; ".xlsm"; ".xltm"; ".pptm"; ".potm";
   ".doc"; ".xls"; ".ppt"; ".xlsx"].

Fixpoint all_dots (s : string) : bool :=
  match s with
  | EmptyString => true
  | String c s' => Ascii.eqb c "." && all_dots s'
  end.

(** [os.path.splitext] of a file name (no separator in it): the name is
    split at its last dot, unless only dots stand in front of it. *)
Definition splitext (nm : string) : string * string :=
  match PyStr.rfind_dot nm with
  | Some i =>
      if all_dots (PyStr.take i nm) then (nm, EmptyString)
      else (PyStr.take i nm, PyStr.drop i nm)
  | None => (nm, EmptyString)
  end.

(** The test of the inner loop: [ext not in OFFICE_EXTENSIONS] skips. *)
Definition scan_keeps (nm : string) : bool :=
  py_in (PyStr.lower (snd (splitext nm))) OFFICE_EXTENSIONS.

(** [walk] is what [os.walk(root)] yields: every directory with the names
    of the files in it.  The result is the list [to_add] of full paths. *)
Definition ScanFolderWorker_run (walk : list (string * list string)) : list path :=
  flat_map (fun dir => map (Path (fst dir)) (List.filter scan_keeps (snd dir))) walk.

(* ================================================================== *)
(** * Properties *)
(* ================================================================== *)

(** ** Paths and extensions *)

Example suffix_xlsm : suffix (Path "/tmp" "budget.XLSM") = ".XLSM".
Proof. reflexivity. Qed.
Example suffix_hidden : suffix (Path "/tmp" ".docm") = EmptyString.
Proof. reflexivity. Qed.
Example suffix_trailing : suffix (Path "/tmp" "a.") = EmptyString.
Proof. reflexivity. Qed.
Example stem_two : stem (Path "/tmp" "a.b.docm") = "a.b".
Proof. reflexivity. Qed.
Example backup_name :
  backup_path (Path "/home/u" "letter.docm") = Path "/home/u" "letter_backup.docm".
Proof. reflexivity. Qed.
Example classify_upper : classify (Path "/tmp" "budget.XLSM") = MacroCapable.
Proof. reflexivity. Qed.
Example classify_mixed : classify (Path "/tmp" "letter.Docm") = MacroCapable.
Proof. reflexivity. Qed.
Example classify_xlsx : classify (Path "/tmp" "invoice.xlsx") = MacroIncapable.
Proof. reflexivity. Qed.
Example classify_html : classify (Path "/tmp" "index.html") = Unsupported.
Proof. reflexivity. Qed.

Section StringLemmas.
Import PyStr.

Lemma lower_ascii_idempotent c : lower_ascii (lower_ascii c) = lower_ascii c.
Proof. destruct c as [[] [] [] [] [] [] [] []]; reflexivity. Qed.

Lemma lower_ascii_dot c : Ascii.eqb (lower_ascii c) "." = Ascii.eqb c ".".
Proof. destruct c as [[] [] [] [] [] [] [] []]; reflexivity. Qed.

Lemma lower_idempotent s : lower (lower s) = lower s.
Proof.
  induction s as [|c s IH]; simpl; [reflexivity|].
  now rewrite lower_ascii_idempotent, IH.
Qed.

Lemma lower_length s : String.length (lower s) = String.length s.
Proof. induction s as [|c s IH]; simpl; congruence. Qed.

Lemma rfind_dot_lower s : rfind_dot (lower s) = rfind_dot s.
Proof.
  induction s as [|c s IH]; simpl; [reflexivity|].
  now rewrite IH, lower_ascii_dot.
Qed.

Lemma drop_lower n : forall s, drop n (lower s) = lower (drop n s).
Proof. induction n as [|n IH]; intros [|c s]; simpl; auto. Qed.

Lemma suffix_of_lower nm : suffix_of (lower nm) = lower (suffix_of nm).
Proof.
  unfold suffix_of. rewrite rfind_dot_lower, lower_length.
  destruct (rfind_dot nm) as [i|]; [|reflexivity].
  destruct (_ && _); [apply drop_lower | reflexivity].
Qed.

Lemma append_cons c a b :
  String.append (String c a) b = String c (String.append a b).
Proof. reflexivity. Qed.

Lemma append_nil b : String.append EmptyString b = b.
Proof. reflexivity. Qed.

Lemma append_empty_r a : String.append a EmptyString = a.
Proof.
  induction a as [|c a IH]; [reflexivity|]. now rewrite append_cons, IH.
Qed.

Lemma str_take_drop n : forall s, String.append (take n s) (drop n s) = s.
Proof.
  induction n as [|n IH]; intros [|c s]; simpl; try reflexivity.
  now rewrite append_cons, IH.
Qed.

(** A name is its stem followed by its suffix. *)
Lemma stem_suffix nm : String.append (stem_of nm) (suffix_of nm) = nm.
Proof.
  unfold stem_of, suffix_of. destruct (rfind_dot nm) as [i|].
  - destruct (_ && _); [apply str_take_drop | apply append_empty_r].
  - apply append_empty_r.
Qed.

Lemma append_length a b :
  String.length (String.append a b) = (String.length a + String.length b)%nat.
Proof.
  induction a as [|c a IH]; [reflexivity|].
  rewrite append_cons. simpl. congruence.
Qed.

(** Two strings that end in tails of the same length end in the same tail. *)
Lemma append_same_tail : forall a b x y,
  String.append a x = String.append b y ->
  String.length x = String.length y -> x = y.
Proof.
  induction a as [|c a IH]; intros [|d b] x y Heq Hlen;
    rewrite ?append_cons, ?append_nil in Heq.
  - exact Heq.
  - subst x. rewrite <- append_cons, append_length in Hlen. simpl in Hlen. lia.
  - subst y. rewrite <- append_cons, append_length in Hlen. simpl in Hlen. lia.
  - injection Heq as _ Heq. eauto.
Qed.

Lemma py_in_spec x xs : py_in x xs = true <-> In x xs.
Proof.
  unfold py_in. rewrite existsb_exists. split.
  - intros (y & Hy & E). apply String.eqb_eq in E. now subst.
  - intros H. exists x. split; [exact H | apply String.eqb_refl].
Qed.

Lemma append_assoc a b c :
  String.append (String.append a b) c = String.append a (String.append b c).
Proof.
  induction a as [|x a IH]; [reflexivity|]. now rewrite !append_cons, IH.
Qed.

(** Every extension of the two tables is a dot and two or three letters. *)
Lemma listed_length x :
  In x (NO_MACRO_EXTS ++ SUPPORTED_EXTS) ->
  String.length x = 4%nat \/ String.length x = 5%nat.
Proof.
  cbn [NO_MACRO_EXTS SUPPORTED_EXTS app In].
  intros H; repeat (destruct H as [<-|H]; [cbn; auto|]); destruct H.
Qed.

Lemma classify_listed p :
  classify p <> Unsupported ->
  In (lower (suffix p)) (NO_MACRO_EXTS ++ SUPPORTED_EXTS).
Proof.
  unfold classify, classify_lower. intros H. apply in_or_app.
  destruct (py_in _ NO_MACRO_EXTS) eqn:E1; [left; now apply py_in_spec|].
  destruct (py_in _ SUPPORTED_EXTS) eqn:E2; [right; now apply py_in_spec|].
  now contradiction H.
Qed.

(** The report file is never one of the documents the tool works on: its
    name ends in [.html]. *)
Lemma report_path_unsupported e : classify (report_path e) = Unsupported.
Proof.
  destruct (classify (report_path e)) eqn:Hc; [exfalso| exfalso |reflexivity].
  all: assert (Hl : classify (report_path e) <> Unsupported) by congruence.
  all: apply classify_listed in Hl.
  all: pose proof (stem_suffix (name (report_path e))) as Hn.
  all: fold (stem (report_path e)) (suffix (report_path e)) in Hn.
  all: destruct (listed_length _ Hl) as [H4|H5]; rewrite lower_length in *.
  all: try (assert (Hs : suffix (report_path e) = "html");
    [ apply (append_same_tail (stem (report_path e))
               (String.append (now_file e) "_macro_cleaner_report."));
      [rewrite Hn, append_assoc; reflexivity | exact H4]
    | rewrite Hs in Hl; cbn in Hl; intuition discriminate ]).
  all: assert (Hs : suffix (report_path e) = ".html");
    [ apply (append_same_tail (stem (report_path e))
               (String.append (now_file e) "_macro_cleaner_report"));
      [rewrite Hn, append_assoc; reflexivity | exact H5]
    | rewrite Hs in Hl; cbn in Hl; intuition discriminate ].
Qed.

Lemma tracked_not_report e p : classify p <> Unsupported -> p <> report_path e.
Proof. intros H ->. apply H, report_path_unsupported. Qed.

Lemma backup_not_self p : backup_path p <> p.
Proof.
  intros H. apply (f_equal name) in H. unfold backup_path in H; simpl in H.
  apply (f_equal String.length) in H. rewrite !append_length in H.
  pose proof (f_equal String.length (stem_suffix (name p))) as Hn.
  rewrite append_length in Hn. fold (stem p) (suffix p) in Hn.
  simpl in H. lia.
Qed.

Lemma backup_not_report e p :
  classify p = MacroCapable -> backup_path p <> report_path e.
Proof.
  intros Hc H.
  assert (Hl : In (lower (suffix p)) SUPPORTED_EXTS).
  { unfold classify, classify_lower in Hc.
    destruct (py_in _ NO_MACRO_EXTS); [discriminate|].
    destruct (py_in _ SUPPORTED_EXTS) eqn:E; [now apply py_in_spec | discriminate]. }
  assert (H5 : String.length (suffix p) = 5%nat).
  { rewrite <- lower_length. cbn in Hl.
    repeat (destruct Hl as [<-|Hl]; [reflexivity|]). destruct Hl. }
  apply (f_equal name) in H. unfold backup_path, report_path in H; simpl in H.
  assert (Hs : suffix p = ".html").
  { apply (append_same_tail (String.append (stem p) "_backup")
             (String.append (now_file e) "_macro_cleaner_report")).
    - rewrite !append_assoc. exact H.
    - exact H5. }
  rewrite Hs in Hl. cbn in Hl. intuition discriminate.
Qed.

End StringLemmas.

(** ** Manifest sanitizer *)

Example sanitize_typical :
  Manifest.sanitize
    (Manifest.of_string "<Types>" ++
     Manifest.default_of "bin" ++ Manifest.of_string " ContentType=x/>" ++
     Manifest.default_of "xml" ++ Manifest.of_string " ContentType=y/>" ++
     Manifest.of_string "</Types>")
  = Manifest.of_string "<Types>" ++
    Manifest.default_of "xml" ++ Manifest.of_string " ContentType=y/>" ++
    Manifest.of_string "</Types>".
Proof. vm_compute. reflexivity. Qed.

Section SanitizerLemmas.
Import Manifest.

Lemma universal_newlines_no_cr_aux n :
  forall s, (length s <= n)%nat -> no_cr (universal_newlines s).
Proof.
  induction n as [|n IH]; intros [|c s] Hlen; cbn [universal_newlines length] in *;
    try (constructor; fail); try lia.
  destruct (N.eqb_spec c 13) as [->|Hc].
  - destruct s as [|d s]; [repeat constructor; discriminate|].
    destruct (N.eqb_spec d 10) as [->|Hd].
    + constructor; [discriminate|]. apply IH. simpl in *. lia.
    + constructor; [discriminate|]. change (no_cr (universal_newlines (d :: s))). apply IH. simpl in *. lia.
  - constructor; [exact Hc|]. apply IH. lia.
Qed.

Lemma universal_newlines_no_cr s : no_cr (universal_newlines s).
Proof. exact (universal_newlines_no_cr_aux (length s) s (le_n _)). Qed.

Lemma universal_newlines_fixed s : no_cr s -> universal_newlines s = s.
Proof.
  induction 1 as [|c s Hc _ IH]; simpl; [reflexivity|].
  destruct (N.eqb_spec c 13); [contradiction|]. now rewrite IH.
Qed.

Lemma sub_decl_Forall (P : N -> Prop) p s :
  Forall P s -> forall k, Forall P (sub_decl p k s).
Proof.
  induction 1 as [|c s Hc Hs IH]; intros k; simpl; [constructor|].
  destruct k as [|k]; [|apply IH].
  destruct (starts_with p (c :: s)).
  - destruct (find_close _); [apply IH | now constructor].
  - constructor; [exact Hc | apply IH].
Qed.

Lemma remove_declarations_Forall (P : N -> Prop) s :
  Forall P s -> Forall P (remove_declarations s).
Proof.
  unfold remove_declarations. generalize patterns as ps. intros ps. revert s.
  induction ps as [|p ps IH]; intros s Hs; simpl; [exact Hs|].
  apply IH. now apply sub_decl_Forall.
Qed.

Lemma collapse_blank_Forall (P : N -> Prop) s :
  P 10%N -> Forall P s -> forall k, Forall P (collapse_blank k s).
Proof.
  intros H10. induction 1 as [|c s Hc Hs IH]; intros k; simpl; [constructor|].
  destruct k as [|k]; [|apply IH].
  destruct (c =? 10)%N; [destruct (last_newline_in_run s)|];
    constructor; auto.
Qed.

Lemma sanitize_no_cr s : no_cr (sanitize s).
Proof.
  unfold sanitize. apply collapse_blank_Forall; [discriminate|].
  apply remove_declarations_Forall, universal_newlines_no_cr.
Qed.

(** A pattern that matches nowhere leaves the text alone. *)
Lemma sub_decl_no_match p s : has_match p s = false -> sub_decl p 0 s = s.
Proof.
  induction s as [|c s IH]; [reflexivity|].
  cbn [has_match sub_decl]. intros H.
  apply orb_false_iff in H as [H1 H2].
  destruct (starts_with p (c :: s)) eqn:E.
  - simpl in H1. destruct (find_close (drop (length p) (c :: s))); [|reflexivity].
    exfalso. apply bool_decide_eq_false in H1. apply H1. eauto.
  - now rewrite IH.
Qed.

Lemma remove_declarations_fixed s :
  has_declaration s = false -> remove_declarations s = s.
Proof.
  unfold has_declaration, remove_declarations. generalize patterns as ps.
  induction ps as [|p ps IH]; simpl; [reflexivity|]. intros H.
  apply orb_false_iff in H as [H1 H2].
  rewrite sub_decl_no_match by exact H1. now apply IH.
Qed.

Lemma collapse_blank_drop s : forall k,
  collapse_blank k s = collapse_blank 0 (drop k s).
Proof.
  induction s as [|c s IH]; intros [|k]; try reflexivity.
  simpl. apply IH.
Qed.

Lemma last_newline_drop s : forall k,
  last_newline_in_run s = Some k -> last_newline_in_run (drop k s) = None.
Proof.
  induction s as [|c s IH]; intros k; simpl; [discriminate|].
  destruct (is_space c); [|discriminate].
  destruct (last_newline_in_run s) as [k'|] eqn:E.
  - intros [= <-]. simpl. now apply IH.
  - destruct (c =? 10)%N; [|discriminate]. intros [= <-]. exact E.
Qed.

Lemma is_space_newline c : (c =? 10)%N = true -> is_space c = true.
Proof. intros H. apply N.eqb_eq in H. now subst. Qed.

Lemma collapse_blank_keeps_run s :
  last_newline_in_run s = None ->
  last_newline_in_run (collapse_blank 0 s) = None.
Proof.
  induction s as [|c s IH]; simpl; [reflexivity|].
  destruct (is_space c) eqn:Hsp.
  - destruct (last_newline_in_run s) eqn:E; [discriminate|].
    destruct (c =? 10)%N eqn:Hc; [discriminate|]. intros _.
    simpl. rewrite Hsp, (IH eq_refl), Hc. reflexivity.
  - intros _. destruct (c =? 10)%N eqn:Hc.
    + apply is_space_newline in Hc. congruence.
    + simpl. now rewrite Hsp.
Qed.

Lemma collapse_blank_settled_aux n :
  forall s, (length s <= n)%nat -> settled (collapse_blank 0 s).
Proof.
  induction n as [|n IH]; intros [|c s] Hlen; simpl in *; try exact I; try lia.
  destruct (c =? 10)%N eqn:Hc.
  - destruct (last_newline_in_run s) as [k|] eqn:E.
    + rewrite collapse_blank_drop. split.
      * intros _. apply collapse_blank_keeps_run. now apply last_newline_drop.
      * apply IH. rewrite length_drop. lia.
    + split; [intros _; now apply collapse_blank_keeps_run | apply IH; lia].
  - split; [|apply IH; lia]. intros ->. discriminate.
Qed.

Lemma collapse_blank_settled s : settled (collapse_blank 0 s).
Proof. exact (collapse_blank_settled_aux (length s) s (le_n _)). Qed.

Lemma collapse_blank_fixed s : settled s -> collapse_blank 0 s = s.
Proof.
  induction s as [|c s IH]; simpl; [reflexivity|]. intros [H1 H2].
  destruct (N.eqb_spec c 10) as [->|Hc].
  - rewrite (H1 eq_refl). now rewrite IH.
  - now rewrite IH.
Qed.

(** The blank-line pass reaches its fixed point in one application. *)
Lemma collapse_blank_idempotent s :
  collapse_blank 0 (collapse_blank 0 s) = collapse_blank 0 s.
Proof. apply collapse_blank_fixed, collapse_blank_settled. Qed.

End SanitizerLemmas.

(** ** The working directory *)

Section TreeLemmas.

Implicit Types (t g : gmap (list string) node) (q k : list string)
  (ms : list (list string * entry)) (d : fdata).

Lemma zip_read_elem q ms d : zip_read q ms = Some d -> (q, EFile d) ∈ ms.
Proof.
  induction ms as [|[n en] ms IH]; simpl; [discriminate|].
  destruct (zip_read q ms) as [d'|].
  - intros [= ->]. right. now apply IH.
  - destruct en as [d'|]; [|discriminate]. unfold component_eqb.
    case_bool_decide; [|discriminate]. intros [= ->]. subst. left.
Qed.

Lemma zip_read_is_Some q ms d : (q, EFile d) ∈ ms -> is_Some (zip_read q ms).
Proof.
  induction ms as [|[n en] ms IH]; [intros H; inversion H|].
  intros H. simpl. apply elem_of_cons in H as [H|H].
  - injection H as <- <-. destruct (zip_read q ms); [eauto|].
    unfold component_eqb. rewrite bool_decide_eq_true_2 by reflexivity. eauto.
  - destruct (IH H) as [d' ->]. eauto.
Qed.

(** *** Normal names *)

Lemma normalise_idempotent k : normalise (normalise k) = normalise k.
Proof.
  unfold normalise. induction k as [|x k IH]; [reflexivity|].
  simpl. destruct (invalid_path_part x) eqn:E; simpl; [exact IH|].
  now rewrite E, IH.
Qed.

Lemma normalise_app k1 k2 : normalise (k1 ++ k2) = normalise k1 ++ normalise k2.
Proof. unfold normalise. apply List.filter_app. Qed.

Lemma normalise_length k : (length (normalise k) <= length k)%nat.
Proof.
  unfold normalise. induction k as [|x k IH]; simpl; [lia|].
  destruct (negb (invalid_path_part x)); simpl; lia.
Qed.

Lemma normal_prefix k1 k2 : normalise (k1 ++ k2) = k1 ++ k2 -> normalise k1 = k1.
Proof.
  rewrite normalise_app. intros H.
  pose proof (normalise_length k1) as H1. pose proof (normalise_length k2) as H2.
  assert (Hl : length (normalise k1) = length k1).
  { apply (f_equal (@length string)) in H. rewrite !length_app in H. lia. }
  apply (f_equal (take (length k1))) in H.
  rewrite <- Hl in H at 1. now rewrite !take_app_length in H.
Qed.

Lemma zip_at_normal q ms :
  Forall (fun m => normalise (fst m) = fst m) ms -> zip_at q ms = zip_read q ms.
Proof.
  induction 1 as [|[n en] ms Hn _ IH]; [reflexivity|].
  simpl in *. now rewrite IH, Hn.
Qed.

(** *** Ancestors *)

Lemma parents_spec k : forall q,
  q ∈ parents k <-> exists r, r <> [] /\ k = q ++ r.
Proof.
  induction k as [|x k IH]; intros q; simpl.
  - split; [intros H; inversion H|].
    intros (r & Hr & E). destruct q, r; simpl in E; congruence.
  - rewrite elem_of_cons, list_elem_of_fmap. split.
    + intros [->|(q' & -> & Hq')].
      * exists (x :: k). split; [discriminate | reflexivity].
      * apply IH in Hq' as (r & Hr & ->). exists r. split; [exact Hr | reflexivity].
    + intros (r & Hr & E). destruct q as [|a q]; [now left|].
      injection E as <- ->. right. exists q. split; [reflexivity|].
      apply IH. eauto.
Qed.

Lemma parents_trans k q q2 : q ∈ parents k -> q2 ∈ parents q -> q2 ∈ parents k.
Proof.
  rewrite !parents_spec. intros (r & Hr & ->) (r2 & Hr2 & ->).
  exists (r2 ++ r). split.
  - destruct r2; [congruence | discriminate].
  - now rewrite app_assoc.
Qed.

Lemma parents_not_self k : k ∉ parents k.
Proof.
  rewrite parents_spec. intros (r & Hr & E).
  apply (f_equal (@length string)) in E. rewrite length_app in E.
  destruct r; [congruence|]. simpl in E. lia.
Qed.

Lemma parents_normal k q : normalise k = k -> q ∈ parents k -> normalise q = q.
Proof.
  intros Hk Hq. apply parents_spec in Hq as (r & _ & ->).
  now apply normal_prefix in Hk.
Qed.

(** *** One member *)

Lemma makedirs_lookup (qs : list (list string)) : forall t0 t,
  makedirs qs t0 = inr t ->
  forall q, t !! q = if decide (q ∈ qs) then Some Folder else t0 !! q.
Proof.
  induction qs as [|k qs IH]; cbn [makedirs]; intros t0 t.
  - intros [= ->] q. case_decide as Hq; [now apply not_elem_of_nil in Hq | reflexivity].
  - intros H q.
    assert (H' : makedirs qs (<[k := Folder]> t0) = inr t)
      by (destruct (t0 !! k) as [[?|]|]; [discriminate | exact H | exact H]).
    rewrite (IH _ _ H' q).
    destruct (decide (q ∈ qs)) as [Hin|Hin].
    + rewrite decide_True; [reflexivity | now right].
    + destruct (decide (q = k)) as [->|Hne].
      * rewrite lookup_insert_eq, decide_True; [reflexivity | left].
      * rewrite lookup_insert_ne by done.
        rewrite decide_False; [reflexivity|].
        intros Hq. apply elem_of_cons in Hq as [?|?]; contradiction.
Qed.

(** What extraction of one member does to the directory. *)
Lemma extract_member_lookup (m : list string * entry) t0 t :
  extract_member m t0 = inr t ->
  forall q, t !! q = if decide (q = normalise (fst m)) then Some (node_of (snd m))
                     else if decide (q ∈ parents (normalise (fst m)))
                          then Some Folder else t0 !! q.
Proof.
  unfold extract_member. destruct m as [n en]; simpl.
  set (k := normalise n).
  destruct (makedirs (parents k) t0) as [|t1] eqn:E; [discriminate|].
  pose proof (makedirs_lookup _ _ _ E) as H1.
  assert (Hins : t = <[k := node_of en]> t1 -> forall q,
            t !! q = if decide (q = k) then Some (node_of en)
                     else if decide (q ∈ parents k) then Some Folder else t0 !! q).
  { intros -> q. destruct (decide (q = k)) as [->|Hne].
    - apply lookup_insert_eq.
    - rewrite lookup_insert_ne by done. apply H1. }
  destruct en as [d|]; simpl.
  - destruct (t1 !! k) as [[?|]|]; intros [= <-]; try discriminate; now apply Hins.
  - unfold mkdir. destruct (t1 !! k) as [[?|]|]; intros [= <-]; now apply Hins.
Qed.

(** No regular file is lost or turned into a directory by a later member
    that is extracted without error, unless that member is a file at the
    same path. *)
Lemma extract_member_keeps (m : list string * entry) t0 t q d :
  extract_member m t0 = inr t -> t0 !! q = Some (File d) ->
  t !! q = Some (File d) \/
  (normalise (fst m) = q /\ exists d', snd m = EFile d').
Proof.
  intros H Hq. pose proof (extract_member_lookup _ _ _ H q) as Hl.
  unfold extract_member in H. destruct m as [n en]; simpl in *.
  set (k := normalise n) in *.
  destruct (makedirs (parents k) t0) as [|t1] eqn:E; [discriminate|].
  pose proof (makedirs_lookup _ _ _ E) as H1.
  destruct (decide (q = k)) as [->|Hne].
  - destruct en as [d'|]; [right; eauto|].
    exfalso. unfold mkdir in H. rewrite (H1 k) in H.
    rewrite decide_False in H by apply parents_not_self.
    rewrite Hq in H. discriminate.
  - left. destruct (decide (q ∈ parents k)) as [Hin|Hin]; [|now rewrite Hl].
    exfalso. clear Hl H. revert t0 t1 E H1 Hq.
    induction (parents k) as [|a qs IH]; [now apply not_elem_of_nil in Hin|].
    intros t0 t1 E _ Hq. simpl in E.
    destruct (decide (q = a)) as [->|Hqa]; [rewrite Hq in E; discriminate|].
    assert (E' : makedirs qs (<[a := Folder]> t0) = inr t1)
      by (destruct (t0 !! a) as [[?|]|]; [discriminate | exact E | exact E]).
    apply elem_of_cons in Hin as [?|Hin]; [contradiction|].
    apply (IH Hin _ _ E' (makedirs_lookup _ _ _ E')).
    now rewrite lookup_insert_ne.
Qed.

(** *** The whole archive *)

Lemma extractall_files ms : forall t0 t q d,
  extractall ms t0 = inr t -> t !! q = Some (File d) ->
  t0 !! q = Some (File d) \/
  exists m, m ∈ ms /\ normalise (fst m) = q /\ snd m = EFile d.
Proof.
  induction ms as [|m ms IH]; simpl; intros t0 t q d.
  - intros [= ->]. now left.
  - destruct (extract_member m t0) as [|t1] eqn:E; [discriminate|].
    intros H1 H2. destruct (IH _ _ _ _ H1 H2) as [H|(m' & Hin & Hm)].
    + rewrite (extract_member_lookup _ _ _ E q) in H.
      destruct (decide (q = normalise (fst m))) as [->|Hne].
      * right. exists m. split; [left|]. split; [reflexivity|].
        destruct (snd m); simpl in H; congruence.
      * destruct (decide (q ∈ parents (normalise (fst m)))); [discriminate|].
        now left.
    + right. exists m'. split; [now right | exact Hm].
Qed.

Lemma extractall_keeps ms : forall t0 t q d,
  extractall ms t0 = inr t -> t0 !! q = Some (File d) ->
  zip_at q ms = None -> t !! q = Some (File d).
Proof.
  induction ms as [|[n en] ms IH]; simpl; intros t0 t q d.
  - now intros [= ->].
  - destruct (extract_member (n, en) t0) as [|t1] eqn:E; [discriminate|].
    intros H Hq Hz. destruct (zip_at q ms) eqn:Ez; [discriminate|].
    destruct (extract_member_keeps _ _ _ _ _ E Hq) as [H1|[Hn [d' Hd']]].
    + eapply IH; eauto.
    + simpl in Hn, Hd'. subst en. unfold component_eqb in Hz.
      rewrite bool_decide_eq_true_2 in Hz by exact Hn. discriminate.
Qed.

Lemma extractall_writes ms : forall t0 t q d,
  extractall ms t0 = inr t -> zip_at q ms = Some d -> t !! q = Some (File d).
Proof.
  induction ms as [|[n en] ms IH]; simpl; intros t0 t q d; [discriminate|].
  destruct (extract_member (n, en) t0) as [|t1] eqn:E; [discriminate|].
  intros H Hz. destruct (zip_at q ms) as [d'|] eqn:Ez.
  - injection Hz as ->. eapply IH; eauto.
  - destruct en as [d'|]; [|discriminate]. unfold component_eqb in Hz.
    case_bool_decide as Hn; [|discriminate]. injection Hz as ->.
    eapply extractall_keeps; eauto.
    rewrite (extract_member_lookup _ _ _ E q). simpl.
    now rewrite decide_True.
Qed.

Lemma extractall_reads ms : forall t0 t q d,
  extractall ms t0 = inr t -> t !! q = Some (File d) ->
  zip_at q ms = Some d \/ (zip_at q ms = None /\ t0 !! q = Some (File d)).
Proof.
  induction ms as [|[n en] ms IH]; simpl; intros t0 t q d.
  - intros [= ->] H. now right.
  - destruct (extract_member (n, en) t0) as [|t1] eqn:E; [discriminate|].
    intros H Hq. destruct (IH _ _ _ _ H Hq) as [Hz|[Hz H1]].
    + rewrite Hz. now left.
    + rewrite Hz. rewrite (extract_member_lookup _ _ _ E q) in H1. simpl in H1.
      unfold component_eqb.
      destruct (decide (q = normalise n)) as [->|Hne].
      * destruct en as [d'|]; simpl in H1; [|discriminate].
        injection H1 as ->. left. now rewrite bool_decide_eq_true_2.
      * destruct (decide (q ∈ parents (normalise n))); [discriminate|].
        right. split; [|exact H1].
        destruct en; [|reflexivity].
        rewrite bool_decide_eq_false_2; [reflexivity | congruence].
Qed.

(** Unpacking leaves a file at a path exactly where [zip_at] finds one. *)
Lemma unzip_at (fault : option string) ms t q d :
  unzip fault (Archive ms) = inr t ->
  (t !! q = Some (File d) <-> zip_at q ms = Some d).
Proof.
  unfold unzip. destruct fault; [discriminate|]. intros H. split.
  - intros Hq. destruct (extractall_reads _ _ _ _ _ H Hq) as [?|[_ H0]];
      [assumption | now rewrite lookup_empty in H0].
  - intros Hz. exact (extractall_writes ms ∅ t q d H Hz).
Qed.

Lemma unzip_read_as (fault : option string) ms g q :
  unzip fault (Archive ms) = inr g ->
  zip_at q ms = match g !! q with Some (File d) => Some d | _ => None end.
Proof.
  intros Hu. destruct (zip_at q ms) as [d|] eqn:E.
  - apply (unzip_at _ _ _ q d Hu) in E. now rewrite E.
  - destruct (g !! q) as [[d|]|] eqn:Eg; try reflexivity.
    apply (unzip_at _ _ _ q d Hu) in Eg. congruence.
Qed.

Lemma unzip_archive (fault : option string) (c : content) g :
  unzip fault c = inr g -> exists ms, c = Archive ms /\ fault = None.
Proof.
  unfold unzip. destruct fault; [discriminate|].
  destruct c; try discriminate. eauto.
Qed.

(** *** Well-formed directories *)

Lemma empty_well_formed : well_formed ∅.
Proof. split; intros k n; intros; now rewrite lookup_empty in *. Qed.

Lemma extract_member_well_formed (m : list string * entry) t0 t :
  well_formed t0 -> extract_member m t0 = inr t -> well_formed t.
Proof.
  intros [Hanc Hnorm] H. pose proof (extract_member_lookup _ _ _ H) as Hl.
  assert (Hfile : forall d, snd m = EFile d ->
                    t0 !! normalise (fst m) <> Some Folder).
  { intros d Hd E0. unfold extract_member in H.
    destruct (makedirs (parents (normalise (fst m))) t0) as [|t1] eqn:E;
      [discriminate|].
    pose proof (makedirs_lookup _ _ _ E (normalise (fst m))) as H1.
    rewrite decide_False in H1 by apply parents_not_self.
    rewrite Hd, H1, E0 in H. discriminate. }
  set (k := normalise (fst m)) in *.
  assert (Hk : normalise k = k) by apply normalise_idempotent.
  split.
  - intros a n q Ha Hq. rewrite Hl in Ha. rewrite Hl.
    destruct (decide (q ∈ parents k)) as [Hqp|Hqp].
    { rewrite decide_False; [reflexivity|].
      intros ->. now apply parents_not_self in Hqp. }
    destruct (decide (a = k)) as [->|Hak]; [contradiction|].
    destruct (decide (a ∈ parents k)) as [Hin|Hin].
    { contradiction Hqp. eapply parents_trans; eauto. }
    pose proof (Hanc _ _ _ Ha Hq) as Hq0.
    destruct (decide (q = k)) as [->|Hne]; [|exact Hq0].
    destruct (snd m) as [d|] eqn:Hm; [|reflexivity].
    now contradiction (Hfile d eq_refl).
  - intros a n Ha. rewrite Hl in Ha.
    destruct (decide (a = k)) as [->|Hak]; [exact Hk|].
    destruct (decide (a ∈ parents k)) as [Hin|Hin].
    + eapply parents_normal; eauto.
    + eapply Hnorm; eauto.
Qed.

Lemma extractall_well_formed ms : forall t0 t,
  well_formed t0 -> extractall ms t0 = inr t -> well_formed t.
Proof.
  induction ms as [|m ms IH]; simpl; intros t0 t Hwf.
  - now intros [= <-].
  - destruct (extract_member m t0) as [|t1] eqn:E; [discriminate|].
    apply IH. eapply extract_member_well_formed; eauto.
Qed.

Lemma unzip_well_formed (fault : option string) (c : content) t :
  unzip fault c = inr t -> well_formed t.
Proof.
  unfold unzip. destruct fault; [discriminate|]. destruct c; try discriminate.
  apply extractall_well_formed, empty_well_formed.
Qed.

Lemma unlink_inr q t t' : unlink q t = inr t' -> t' = delete q t.
Proof. unfold unlink. destruct (t !! q) as [[?|]|]; now intros [= <-]. Qed.

Lemma unlink_inr_file q t t' :
  unlink q t = inr t' -> exists d, t !! q = Some (File d).
Proof. unfold unlink. destruct (t !! q) as [[d|]|]; intros [=]. eauto. Qed.

Lemma unlink_well_formed k t t' :
  well_formed t -> unlink k t = inr t' -> well_formed t'.
Proof.
  intros [Hanc Hnorm] H. destruct (unlink_inr_file _ _ _ H) as [d Hk].
  apply unlink_inr in H as ->. split.
  - intros a n q Ha Hq.
    destruct (decide (k = a)) as [->|Hne]; [now rewrite lookup_delete_eq in Ha|].
    rewrite lookup_delete_ne in Ha by done. pose proof (Hanc _ _ _ Ha Hq) as H.
    rewrite lookup_delete_ne; [exact H|]. intros ->. congruence.
  - intros a n Ha.
    destruct (decide (k = a)) as [->|Hne]; [now rewrite lookup_delete_eq in Ha|].
    rewrite lookup_delete_ne in Ha by done. eauto.
Qed.

Lemma clean_content_types_other q t :
  q <> content_types_path ->
  _clean_content_types content_types_path t !! q = t !! q.
Proof.
  intros Hq. unfold _clean_content_types.
  destruct (t !! content_types_path) as [[[?|?]|]|]; try reflexivity.
  now rewrite lookup_insert_ne.
Qed.

Lemma clean_content_types_well_formed k t :
  well_formed t -> well_formed (_clean_content_types k t).
Proof.
  intros [Hanc Hnorm]. unfold _clean_content_types.
  destruct (t !! k) as [[[c|b]|]|] eqn:E; try (split; assumption).
  split.
  - intros a n q Ha Hq.
    assert (Hq' : t !! q = Some Folder).
    { destruct (decide (k = a)) as [->|Hne]; [eapply Hanc; eauto|].
      rewrite lookup_insert_ne in Ha by done. eapply Hanc; eauto. }
    rewrite lookup_insert_ne; [exact Hq'|]. intros ->. congruence.
  - intros a n Ha. destruct (decide (k = a)) as [->|Hne]; [eauto|].
    rewrite lookup_insert_ne in Ha by done. eauto.
Qed.

(** *** Repacking *)

Lemma packed_elem t q d :
  (q, EFile d) ∈ packed t <-> q <> [] /\ t !! q = Some (File d).
Proof.
  unfold packed. rewrite list_elem_of_omap. split.
  - intros ([k n] & Hin & Hf). apply elem_of_map_to_list in Hin.
    simpl in Hf. destruct k as [|x k]; [discriminate|].
    destruct n; [|discriminate]. injection Hf as <- <-. split; [discriminate|exact Hin].
  - intros [Hq H]. exists (q, File d).
    split; [now apply elem_of_map_to_list|]. simpl.
    destruct q; [congruence | reflexivity].
Qed.

Lemma packed_members t m :
  m ∈ packed t -> exists d, snd m = EFile d /\ fst m <> [] /\
                            t !! fst m = Some (File d).
Proof.
  unfold packed. rewrite list_elem_of_omap.
  intros ([k n] & Hin & Hf). apply elem_of_map_to_list in Hin. simpl in Hf.
  destruct k as [|x k]; [discriminate|]. destruct n as [d|]; [|discriminate].
  injection Hf as <-. exists d. simpl. repeat split; [discriminate | exact Hin].
Qed.

(** A repacked archive reads back exactly the regular files of the
    directory it was made from. *)
Lemma zip_read_packed t q :
  q <> [] ->
  zip_read q (packed t) = match t !! q with Some (File d) => Some d | _ => None end.
Proof.
  intros Hq. destruct (zip_read q (packed t)) as [d|] eqn:E.
  - apply zip_read_elem, packed_elem in E as [_ E]. now rewrite E.
  - destruct (t !! q) as [[d|]|] eqn:Ht; try reflexivity.
    assert (Hin : (q, EFile d) ∈ packed t) by (apply packed_elem; auto).
    apply zip_read_is_Some in Hin. rewrite E in Hin. now destruct Hin.
Qed.

Lemma packed_normal t :
  well_formed t -> Forall (fun m => normalise (fst m) = fst m) (packed t).
Proof.
  intros [_ Hnorm]. apply Forall_forall. intros m Hm.
  apply packed_members in Hm as (d & _ & _ & Hk). eauto.
Qed.

Lemma zip_at_packed t q :
  well_formed t -> q <> [] ->
  zip_at q (packed t) = match t !! q with Some (File d) => Some d | _ => None end.
Proof.
  intros Hwf Hq. rewrite zip_at_normal by now apply packed_normal.
  now apply zip_read_packed.
Qed.

Lemma makedirs_within (qs : list (list string)) : forall t cur,
  (forall q, q ∈ qs -> t !! q = Some Folder) -> cur ⊆ t ->
  exists cur', makedirs qs cur = inr cur' /\ cur' ⊆ t.
Proof.
  induction qs as [|k qs IH]; simpl; intros t cur Hq Hsub; [eauto|].
  assert (Hk : t !! k = Some Folder) by (apply Hq; left).
  assert (E : match cur !! k with
              | Some (File _) => inl (OSError "NotADirectoryError")
              | _ => makedirs qs (<[k := Folder]> cur)
              end = makedirs qs (<[k := Folder]> cur)).
  { destruct (cur !! k) as [[d|]|] eqn:Ec; try reflexivity.
    pose proof (lookup_weaken _ _ _ _ Ec Hsub). congruence. }
  rewrite E. apply IH.
  - intros q H. apply Hq. now right.
  - now apply insert_subseteq_l.
Qed.

Lemma extractall_within ms t :
  well_formed t ->
  (forall m, m ∈ ms -> exists d, snd m = EFile d /\ normalise (fst m) = fst m /\
                                 t !! fst m = Some (File d)) ->
  forall cur, cur ⊆ t -> exists t', extractall ms cur = inr t' /\ t' ⊆ t.
Proof.
  intros [Hanc Hnorm]. induction ms as [|[k en] ms IH]; simpl; intros Hms cur Hsub;
    [eauto|].
  destruct (Hms (k, en)) as (d & Hen & Hn & Hk); [left|]. simpl in Hen, Hn, Hk.
  subst en.
  destruct (makedirs_within (parents k) t cur) as (cur1 & E1 & Hsub1).
  { intros q Hq. eapply Hanc; eauto. }
  { exact Hsub. }
  unfold extract_member; simpl. rewrite Hn, E1.
  assert (E2 : match cur1 !! k with
               | Some Folder => inl (OSError "IsADirectoryError")
               | _ => inr (<[k := File d]> cur1)
               end = inr (<[k := File d]> cur1)).
  { destruct (cur1 !! k) as [[?|]|] eqn:Ec; try reflexivity.
    pose proof (lookup_weaken _ _ _ _ Ec Hsub1). congruence. }
  rewrite E2. apply IH.
  - intros m Hm. apply Hms. now right.
  - now apply insert_subseteq_l.
Qed.

(** The archive written from a well-formed directory unpacks again, into
    a part of that directory with the same regular files. *)
Lemma packed_unpacks t :
  well_formed t ->
  exists t' : gmap (list string) node,
    (unzip None (Archive (packed t)) = inr t') /\ (t' ⊆ t) /\
    forall q d, q <> [] -> (t' !! q = Some (File d) <-> t !! q = Some (File d)).
Proof.
  intros Hwf.
  destruct (extractall_within (packed t) t Hwf)
    with (cur := (∅ : gmap (list string) node)) as (t' & E & Hsub).
  - intros m Hm. destruct (packed_members _ _ Hm) as (d & Hd & _ & Hk).
    exists d. repeat split; [exact Hd | | exact Hk].
    destruct Hwf as [_ Hnorm]. eauto.
  - apply map_empty_subseteq.
  - exists t'. split; [exact E|]. split; [exact Hsub|]. intros q d Hq. split.
    + intros H. eapply lookup_weaken; eauto.
    + intros H. apply (extractall_writes (packed t) ∅ t' q d E).
      now rewrite zip_at_packed, H.
Qed.

End TreeLemmas.

(** ** Running the pipeline symbolically *)

Section Run.

Lemma wp_run {A} (m : M A) Q s s' r : wp m Q s -> m s = (s', r) -> Q s' r.
Proof. unfold wp. intros H E. now rewrite E in H. Qed.

Lemma wp_bind {A B} (m : M A) (k : A -> M B) Q s :
  wp m (fun s' r => match r with
                    | Return a => wp (k a) Q s'
                    | Raise e => Q s' (Raise e)
                    end) s ->
  wp (bind m k) Q s.
Proof. unfold wp, bind. destruct (m s) as [s' [a|err]]; simpl; auto. Qed.

Lemma wp_try {A} (m : M A) h Q s :
  wp m (fun s' r => match r with
                    | Return a => Q s' (Return a)
                    | Raise err => wp (h err) Q s'
                    end) s ->
  wp (try_except m h) Q s.
Proof. unfold wp, try_except. destruct (m s) as [s' [a|err]]; simpl; auto. Qed.

Lemma wp_ret {A} (a : A) Q s : Q s (Return a) -> wp (ret a) Q s.
Proof. auto. Qed.

Lemma wp_raise {A} err (Q : state -> outcome A -> Prop) s :
  Q s (Raise err) -> wp (raise err) Q s.
Proof. auto. Qed.

Lemma wp_modify f Q s : Q (f s) (Return tt) -> wp (modify f) Q s.
Proof. auto. Qed.

Lemma wp_get Q s : Q s (Return s) -> wp get Q s.
Proof. auto. Qed.

Lemma wp_update rid f Q s :
  Q (with_heap (alter f rid (heap s)) s) (Return tt) -> wp (update rid f) Q s.
Proof. auto. Qed.

Lemma wp_copy2 e src dst Q s :
  (disk s !! src = None -> Q s (Raise (OSError "FileNotFoundError"))) ->
  (forall c, disk s !! src = Some c -> copy_fault e = OpenDenied ->
   Q s (Raise (OSError "PermissionError"))) ->
  (forall c k, disk s !! src = Some c -> copy_fault e = FailsAfter k ->
   Q (with_disk (<[dst := truncated k c]> (disk s)) s)
     (Raise (OSError "write failed"))) ->
  (forall c, disk s !! src = Some c -> copy_fault e = WriteOk ->
   Q (with_disk (<[dst := c]> (disk s)) s) (Return tt)) ->
  wp (copy2 e src dst) Q s.
Proof.
  intros H1 H2 H3 H4. unfold wp, copy2.
  destruct (disk s !! src) as [c|]; [|now apply H1].
  destruct (copy_fault e) eqn:E; simpl; eauto.
Qed.

Lemma generate_html_report_nonempty e (data : list nat) s :
  data <> [] ->
  _generate_html_report e data s
  = if report_fault e (report_writes s)
    then (with_report_writes (S (report_writes s)) s,
          Raise (OSError "report not written"))
    else (with_disk (<[report_path e := Html (length data)]> (disk s))
            (with_report_writes (S (report_writes s)) s), Return tt).
Proof. destruct data; [congruence | reflexivity]. Qed.

(** The three ways [_save_report] can go. *)
Lemma wp_save_report e rid gen Q s :
  (gen = false -> Q (with_history (_report_history s ++ [rid]) s) (Return tt)) ->
  (gen = true -> report_fault e (report_writes s) = false ->
   Q (with_disk
        (<[report_path e := Html (length (_report_history s ++ [rid]))]> (disk s))
        (with_report_writes (S (report_writes s))
           (with_history (_report_history s ++ [rid]) s))) (Return tt)) ->
  (gen = true -> report_fault e (report_writes s) = true ->
   Q (with_report_writes (S (report_writes s))
        (with_history (_report_history s ++ [rid]) s))
     (Raise (OSError "report not written"))) ->
  wp (_save_report e [rid] gen) Q s.
Proof.
  intros H1 H2 H3. unfold wp, _save_report, bind, modify, ret, get. simpl.
  destruct gen; [|now apply H1].
  rewrite generate_html_report_nonempty
    by (simpl; destruct (_report_history s); discriminate).
  simpl.
  destruct (report_fault e (report_writes s)) eqn:E; [now apply H3 | now apply H2].
Qed.

(** The digest read is empty or that of the file. *)
Lemma get_file_meta_cases e k (d : gmap path content) p :
  _get_file_meta e k d p = None \/ _get_file_meta e k d p = d !! p.
Proof. unfold _get_file_meta. destruct (meta_fault e k); auto. Qed.

Lemma last_history d h l v w rid r :
  h !! rid = Some r -> last (history (State d h (l ++ [rid]) v w)) = Some r.
Proof.
  intros H. unfold history; simpl. rewrite omap_app. simpl. rewrite H.
  apply last_snoc.
Qed.

Lemma alter_lookup (f : report -> report) rid (h : gmap nat report) r :
  h !! rid = Some r -> alter f rid h !! rid = Some (f r).
Proof. intros H. now rewrite lookup_alter_eq, H. Qed.

Lemma from_option_lookup {B} (f : report -> B) x rid (h : gmap nat report) r :
  h !! rid = Some r -> from_option f x (h !! rid) = f r.
Proof. now intros ->. Qed.

(** What has just been written exists: the SaveFailed test cannot fire
    after a repack that did not raise. *)
Lemma exists_after_write (p : path) c (d : gmap path content) :
  negb (bool_decide (is_Some (<[p := c]> d !! p))) = false.
Proof.
  rewrite lookup_insert_eq. rewrite bool_decide_eq_true_2 by eauto. reflexivity.
Qed.

End Run.

Ltac norm_state :=
  unfold with_disk, with_heap, with_history, with_last_vba_size,
    with_report_writes in *;
  cbn [disk heap _report_history _last_vba_size report_writes fst snd
       negb andb] in *;
  rewrite ?exists_after_write.

Ltac known_or_destruct x :=
  first [ match goal with H : x = _ |- _ => rewrite H end
        | destruct x eqn:? ].

Ltac wp_step :=
  lazymatch goal with
  | |- wp (bind _ _) _ _ => apply wp_bind
  | |- wp (try_except _ _) _ _ => apply wp_try
  | |- wp (_save_report _ _ _) _ _ =>
      apply wp_save_report; [intros ? | intros ? ? | intros ? ?]
  | |- wp (ret _) _ _ => apply wp_ret
  | |- wp (raise _) _ _ => apply wp_raise
  | |- wp (modify _) _ _ => apply wp_modify
  | |- wp get _ _ => apply wp_get
  | |- wp (update _ _) _ _ => apply wp_update
  | |- wp (lift ?r) _ _ => known_or_destruct r; unfold lift
  | |- wp (copy2 _ _ _) _ _ =>
      apply wp_copy2; [intros ? | intros ? ? ? | intros ? ? ? ? | intros ? ? ?]
  | |- wp (_repack_docx _ _ _) _ _ => unfold _repack_docx
  | |- wp (if ?b then _ else _) _ _ => known_or_destruct b
  | |- wp (match ?x with _ => _ end) _ _ => known_or_destruct x
  | |- wp (clean_vba_macro _ _ _ _ _) _ _ => unfold clean_vba_macro
  | |- wp (clean_try _ _ _ _ _) _ _ => unfold clean_try
  | |- wp (finish _ _ _ _ _ _ _) _ _ => unfold finish
  | |- wp (strip_vba _ _ _ _ _) _ _ => unfold strip_vba
  | |- wp (let x := _ in _) _ _ => cbv zeta
  | |- wp _ _ _ => fail "stuck"
  end; cbv beta iota; norm_state.

(** Runs [clean_vba_macro] down every path, leaving the postcondition to
    be shown at each exit. *)
Ltac run_pipeline := repeat wp_step.

Ltac heap_lookup := repeat (apply alter_lookup); apply lookup_insert_eq.

Ltac its_record :=
  try erewrite from_option_lookup by heap_lookup;
  try erewrite last_history by heap_lookup.

(** ** After the strip *)

Section Stripped.

(** The directory that gets repacked. *)
Lemma stripped_tree (g g0 g1 : gmap (list string) node) (dt : doc_type) :
  unlink (vba_paths dt) g = inr g0 ->
  (exists_in g0 (rels_of dt) = false /\ g1 = g0) \/
  unlink (rels_of dt) g0 = inr g1 ->
  forall t,
    t = (if exists_in g1 content_types_path
         then _clean_content_types content_types_path g1 else g1) ->
    stripped g dt t /\ g !! rels_of dt <> Some Folder /\
    (well_formed g -> well_formed t).
Proof.
  intros H0 H1 t ->.
  assert (Hnf : g !! rels_of dt <> Some Folder).
  { apply unlink_inr in H0 as ->. intros Hf.
    assert (Hd : delete (vba_paths dt) g !! rels_of dt = Some Folder)
      by (rewrite lookup_delete_ne by (destruct dt; discriminate); exact Hf).
    destruct H1 as [[Hno _] | H1].
    - unfold exists_in in Hno. apply bool_decide_eq_false in Hno.
      apply Hno. eauto.
    - apply unlink_inr_file in H1 as [x Hx]. congruence. }
  assert (Hwf0 : well_formed g -> well_formed g0)
    by (intros Hw; exact (unlink_well_formed _ _ _ Hw H0)).
  apply unlink_inr in H0 as ->.
  assert (Hg1 : (forall q, q <> rels_of dt ->
                   g1 !! q = delete (vba_paths dt) g !! q) /\
                g1 !! rels_of dt = None /\
                (well_formed (delete (vba_paths dt) g) -> well_formed g1)).
  { destruct H1 as [[Hno ->] | H1].
    - split; [reflexivity|]. split; [|auto].
      unfold exists_in in Hno. apply bool_decide_eq_false in Hno.
      destruct (delete (vba_paths dt) g !! rels_of dt) eqn:E; [|reflexivity].
      exfalso. apply Hno. eauto.
    - assert (Hwf1 : well_formed (delete (vba_paths dt) g) -> well_formed g1)
        by (intros Hw; exact (unlink_well_formed _ _ _ Hw H1)).
      apply unlink_inr in H1 as ->. split; [|split; [|auto]].
      + intros q Hq. now rewrite lookup_delete_ne.
      + apply lookup_delete_eq. }
  destruct Hg1 as (Hg1 & Hrels & Hwf1).
  set (t := if exists_in g1 content_types_path
            then _clean_content_types content_types_path g1 else g1).
  assert (Ht : forall q, q <> content_types_path -> t !! q = g1 !! q).
  { intros q Hq. unfold t. destruct (exists_in g1 content_types_path);
      [now apply clean_content_types_other | reflexivity]. }
  assert (Hct : content_types_path <> rels_of dt /\
                content_types_path <> vba_paths dt)
    by (destruct dt; split; discriminate).
  destruct Hct as [Hct1 Hct2].
  split; [repeat split|split; [exact Hnf|]].
  - rewrite Ht, Hg1 by (destruct dt; discriminate). apply lookup_delete_eq.
  - rewrite Ht by auto. exact Hrels.
  - intros q Hq1 Hq2 Hq3. rewrite Ht, Hg1 by assumption.
    now rewrite lookup_delete_ne.
  - assert (E : g1 !! content_types_path = g !! content_types_path).
    { rewrite Hg1 by assumption. now rewrite lookup_delete_ne. }
    rewrite <- E. unfold t, exists_in, _clean_content_types.
    destruct (g1 !! content_types_path) as [[[c|bs]|]|] eqn:E1.
    + rewrite bool_decide_eq_true_2 by eauto. apply lookup_insert_eq.
    + rewrite bool_decide_eq_true_2 by eauto. exact E1.
    + rewrite bool_decide_eq_true_2 by eauto. exact E1.
    + case_bool_decide; exact E1.
  - intros Hwf. unfold t. specialize (Hwf1 (Hwf0 Hwf)).
    destruct (exists_in g1 content_types_path);
      [now apply clean_content_types_well_formed | assumption].
Qed.

Lemma unlink_file (q : list string) (t : gmap (list string) node) (d : fdata) :
  t !! q = Some (File d) -> unlink q t = inr (delete q t).
Proof. unfold unlink. now intros ->. Qed.

Lemma stripped_other_streams (g t : gmap (list string) node) dt dt' :
  stripped g dt t -> dt' <> dt -> t !! vba_paths dt' = g !! vba_paths dt'.
Proof.
  intros (_ & _ & H & _) Hne.
  apply H; destruct dt, dt'; first [now contradiction Hne | discriminate].
Qed.

Lemma capable_of_tests p :
  py_in (PyStr.lower (suffix p)) NO_MACRO_EXTS = false ->
  negb (py_in (PyStr.lower (suffix p)) SUPPORTED_EXTS) = false ->
  classify p = MacroCapable.
Proof. unfold classify, classify_lower. now intros -> ->. Qed.

Lemma incapable_of_tests p :
  py_in (PyStr.lower (suffix p)) NO_MACRO_EXTS = true ->
  classify p = MacroIncapable.
Proof. unfold classify, classify_lower. now intros ->. Qed.

Lemma unsupported_of_tests p :
  py_in (PyStr.lower (suffix p)) NO_MACRO_EXTS = false ->
  negb (py_in (PyStr.lower (suffix p)) SUPPORTED_EXTS) = true ->
  classify p = Unsupported.
Proof. unfold classify, classify_lower. now intros -> ->. Qed.

End Stripped.

(** Facts every exit of the pipeline may need: the class of the input and
    that the input, and its backup, are not the report file. *)
Ltac path_facts e p :=
  try match goal with
    | H1 : py_in (PyStr.lower (suffix p)) NO_MACRO_EXTS = false,
      H2 : negb (py_in (PyStr.lower (suffix p)) SUPPORTED_EXTS) = false |- _ =>
        pose proof (capable_of_tests p H1 H2) as Hclass;
        assert (Hrep : p <> report_path e)
          by (apply tracked_not_report; rewrite Hclass; discriminate);
        pose proof (backup_not_report e p Hclass) as Hbrep;
        pose proof (backup_not_self p) as Hbself
    | H1 : py_in (PyStr.lower (suffix p)) NO_MACRO_EXTS = true |- _ =>
        pose proof (incapable_of_tests p H1) as Hclass;
        assert (Hrep : p <> report_path e)
          by (apply tracked_not_report; rewrite Hclass; discriminate)
    | H1 : py_in (PyStr.lower (suffix p)) NO_MACRO_EXTS = false,
      H2 : negb (py_in (PyStr.lower (suffix p)) SUPPORTED_EXTS) = true |- _ =>
        pose proof (unsupported_of_tests p H1 H2) as Hclass
    end.

Ltac disk_lookup :=
  repeat first
    [ rewrite lookup_insert_eq
    | rewrite lookup_insert_ne by (first [assumption | apply not_eq_sym; assumption]) ].

(** What is known of the directory that gets repacked, at the exits of the
    pipeline behind the strip. *)
Ltac tree_facts :=
  try match goal with
    | H0 : unlink (vba_paths ?dt) ?g = inr ?g0,
      H1 : unlink (rels_of ?dt) ?g0 = inr ?g1 |- _ =>
        pose proof (stripped_tree g g0 g1 dt H0 (or_intror H1) _ eq_refl)
          as [Hstripped [Hrels Hwft]]
    | H0 : unlink (vba_paths ?dt) ?g = inr ?g0,
      H1 : exists_in ?g0 (rels_of ?dt) = false |- _ =>
        pose proof (stripped_tree g g0 g0 dt H0
                      (or_introl (conj H1 eq_refl)) _ eq_refl)
          as [Hstripped [Hrels Hwft]]
    end.

(** ** Extension classification *)

(** C10.  Extension classification is case-insensitive: the tests are made
    on the lowercased suffix, so a name and its lowercase form are
    classified alike, whatever the case of the extension. *)
Theorem classify_case_insensitive d nm :
  classify (Path d nm) = classify_lower (suffix_of (PyStr.lower nm)) /\
  classify (Path d (PyStr.lower nm)) = classify (Path d nm).
Proof.
  unfold classify, suffix; simpl. rewrite suffix_of_lower. split.
  - reflexivity.
  - now rewrite lower_idempotent.
Qed.

(** ** Manifest sanitizer, end to end *)

Lemma sanitize_fixed content :
  Manifest.has_declaration (Manifest.sanitize content) = false ->
  Manifest.sanitize (Manifest.sanitize content) = Manifest.sanitize content.
Proof.
  intros H. unfold Manifest.sanitize at 1.
  rewrite (universal_newlines_fixed _ (sanitize_no_cr content)).
  rewrite (remove_declarations_fixed _ H).
  unfold Manifest.sanitize. apply collapse_blank_idempotent.
Qed.

Section SanitizerConverse.
Import Manifest.

Lemma find_close_app u : forall t,
  is_Some (find_close t) -> is_Some (find_close (u ++ t)).
Proof.
  induction u as [|c u IH]; intros t Ht; [exact Ht|].
  specialize (IH t Ht). cbn [app find_close].
  destruct (u ++ t) as [|d r] eqn:E.
  - destruct IH as [x Hx]. discriminate.
  - destruct ((c =? 47)%N && (d =? 62)%N); [eauto|].
    destruct IH as [x ->]. simpl. eauto.
Qed.

Lemma find_close_drop (s : list N) n k :
  is_Some (find_close (drop (n + k) s)) -> is_Some (find_close (drop n s)).
Proof.
  intros H. rewrite <- (firstn_skipn k (drop n s)), drop_drop.
  now apply find_close_app.
Qed.

Lemma has_match_close p s :
  has_match p s = true -> exists i, is_Some (find_close (drop (length p + i) s)).
Proof.
  induction s as [|c s IH]; [discriminate|]. cbn [has_match].
  intros H. apply orb_true_iff in H as [H|H].
  - apply andb_true_iff in H as [_ H]. apply bool_decide_eq_true in H.
    exists 0%nat. now rewrite Nat.add_0_r.
  - destruct (IH H) as [i Hi]. exists (S i).
    now rewrite Nat.add_succ_r.
Qed.

Lemma sub_decl_length p s : forall k, (length (sub_decl p k s) <= length s)%nat.
Proof.
  induction s as [|c s IH]; intros k; simpl; [lia|].
  destruct k as [|k]; [|specialize (IH k); lia].
  destruct (starts_with p (c :: s)).
  - destruct (find_close _); [|simpl; lia].
    match goal with |- (length (sub_decl p ?j s) <= _)%nat => specialize (IH j) end.
    lia.
  - simpl. specialize (IH 0%nat). lia.
Qed.

(** A pattern that matches somewhere makes the text shorter. *)
Lemma sub_decl_shrinks p s :
  has_match p s = true -> (length (sub_decl p 0 s) < length s)%nat.
Proof.
  induction s as [|c s IH]; [discriminate|]. intros H.
  cbn [sub_decl]. destruct (starts_with p (c :: s)) eqn:E.
  - destruct (find_close (drop (length p) (c :: s))) as [j|] eqn:F.
    + match goal with |- (length (sub_decl p ?j s) < _)%nat =>
        pose proof (sub_decl_length p s j) end.
      simpl. lia.
    + exfalso. destruct (has_match_close _ _ H) as [i Hi].
      apply find_close_drop in Hi. rewrite F in Hi. now destruct Hi.
  - cbn [has_match] in H. rewrite E in H. simpl in H.
    specialize (IH H). simpl. lia.
Qed.

Lemma remove_declarations_length_aux ps : forall s,
  (length (fold_left (fun acc p => sub_decl p 0 acc) ps s) <= length s)%nat.
Proof.
  induction ps as [|p ps IH]; intros s; simpl; [lia|].
  specialize (IH (sub_decl p 0 s)). pose proof (sub_decl_length p s 0). lia.
Qed.

Lemma remove_declarations_shrinks s :
  has_declaration s = true ->
  (length (remove_declarations s) < length s)%nat.
Proof.
  unfold has_declaration, remove_declarations. generalize patterns as ps.
  induction ps as [|p ps IH]; simpl; [discriminate|]. intros H.
  destruct (has_match p s) eqn:E.
  - pose proof (sub_decl_shrinks p s E).
    pose proof (remove_declarations_length_aux ps (sub_decl p 0 s)). lia.
  - rewrite sub_decl_no_match by exact E. apply IH. exact H.
Qed.

Lemma collapse_blank_length s : forall k,
  (length (collapse_blank k s) <= length s)%nat.
Proof.
  induction s as [|c s IH]; intros k; simpl; [lia|].
  destruct k as [|k]; [|specialize (IH k); lia].
  destruct (c =? 10)%N; [destruct (last_newline_in_run s) as [j|]|]; simpl.
  - specialize (IH j). lia.
  - specialize (IH 0%nat). lia.
  - specialize (IH 0%nat). lia.
Qed.

(** The condition of [sanitize_fixed] is necessary as well: if the first
    pass leaves a declaration, the second pass makes the text shorter. *)
Lemma sanitize_fixed_iff content :
  sanitize (sanitize content) = sanitize content <->
  has_declaration (sanitize content) = false.
Proof.
  split.
  - intros H. destruct (has_declaration (sanitize content)) eqn:E; [|reflexivity].
    exfalso. apply remove_declarations_shrinks in E.
    apply (f_equal (@length N)) in H. unfold sanitize at 1 in H.
    rewrite (universal_newlines_fixed _ (sanitize_no_cr content)) in H.
    pose proof (collapse_blank_length
                  (remove_declarations (sanitize content)) 0).
    lia.
  - apply sanitize_fixed.
Qed.

End SanitizerConverse.

(** C6 (counterexample).  A declaration nested inside another one:
    [<Default Exte<Default Extension="bin"/>nsion="bin"/>].  The first
    pass removes the inner declaration and thereby assembles a new one,
    which only a second pass removes. *)
Lemma nested_declaration_needs_two_passes :
  _clean_content_types content_types_path
    (_clean_content_types content_types_path Sample.nested_dir)
    !! content_types_path
  <> _clean_content_types content_types_path Sample.nested_dir
       !! content_types_path.
Proof. vm_compute. discriminate. Qed.

(** C6 (amended).  [_clean_content_types] does nothing when the manifest
    does not exist (or cannot be read as text), and on a manifest that can
    be read a second application changes nothing exactly when the first
    one leaves no text that matches one of the four patterns. *)
Theorem clean_content_types_idempotent (p : list string)
    (t : gmap (list string) node) :
  (t !! p = None -> _clean_content_types p t = t) /\
  ((forall content, t !! p <> Some (File (Utf8 content))) ->
   _clean_content_types p t = t) /\
  (forall content,
     t !! p = Some (File (Utf8 content)) ->
     (_clean_content_types p (_clean_content_types p t)
      = _clean_content_types p t <->
      Manifest.has_declaration (Manifest.sanitize content) = false)).
Proof.
  split; [|split].
  - intros E. unfold _clean_content_types. now rewrite E.
  - intros E. unfold _clean_content_types.
    destruct (t !! p) as [[[content|b]|]|] eqn:Ep; try reflexivity.
    now contradiction (E content).
  - intros content E. rewrite <- sanitize_fixed_iff.
    unfold _clean_content_types. rewrite E, lookup_insert_eq, insert_insert_eq.
    split.
    + intros H. apply (f_equal (fun m => m !! p)) in H.
      rewrite !lookup_insert_eq in H. congruence.
    + now intros ->.
Qed.

Example typical_manifest_settles :
  _clean_content_types content_types_path
    (_clean_content_types content_types_path Sample.manifest_dir)
    !! content_types_path
  = _clean_content_types content_types_path Sample.manifest_dir
      !! content_types_path.
Proof. vm_compute. reflexivity. Qed.

(** ** Macro extractor *)

(** C2 (counterexample).  [VBA_Parser] raises on the document, which is a
    zip holding a macro stream: the result is the extraction-failed
    placeholder and the document is never opened as a zip. *)
Lemma parse_error_skips_fallback :
  Sample.throwing (WholeDocument Sample.docm) = inl "FileOpenError" /\
  is_Some (first_stream (match Sample.with_macro with
                         | Archive ms => ms | _ => [] end)) /\
  _extract_vba_code (Some Sample.throwing) (disk Sample.start) Sample.docm
  = (ExtractFailed "FileOpenError", [EvParse (WholeDocument Sample.docm)]) /\
  fallback_attempted
    (snd (_extract_vba_code (Some Sample.throwing) (disk Sample.start)
            Sample.docm)) = false.
Proof. vm_compute. repeat split; eauto. Qed.

(** The fallback at work: the pass over the document finds nothing (and
    [detect_vba_macros] raises on the way), the stream file yields the
    code. *)
Example fallback_recovers_code :
  _extract_vba_code (Some Sample.silent) (disk Sample.start) Sample.docm
  = (Code [Manifest.of_string "Sub Auto_Open()"],
     [EvParse (WholeDocument Sample.docm); EvOpenZip; EvMkstemp;
      EvParse (StreamFile Sample.stream); EvUnlinkTemp]).
Proof. vm_compute. reflexivity. Qed.

(** C2 (amended).  The fallback is attempted exactly when the pass over the
    whole document ends without raising and without code (an error inside
    [detect_vba_macros] or [get_vba_code_all_modules] does not count: it is
    swallowed) and the file exists; then a stream found in the zip is
    parsed and its temporary file removed.  When [VBA_Parser] or
    [extract_macros] raises, the result is the extraction-failed
    placeholder. *)
Theorem fallback_iff_empty_parse V dsk p :
  let r := _extract_vba_code (Some V) dsk p in
  (fallback_attempted (snd r) = true <->
   (exists whole, V (WholeDocument p) = inr whole /\
                  _extract_vba_from_parser whole = inr []) /\
   is_Some (dsk !! p)) /\
  (fallback_attempted (snd r) = true ->
   forall ms, dsk !! p = Some (Archive ms) -> is_Some (first_stream ms) ->
              stream_parsed (snd r) = true /\ In EvUnlinkTemp (snd r)) /\
  (forall err, V (WholeDocument p) = inl err -> fst r = ExtractFailed err) /\
  (forall whole err, V (WholeDocument p) = inr whole ->
                     _extract_vba_from_parser whole = inl err ->
                     fst r = ExtractFailed err).
Proof.
  cbv zeta. unfold _extract_vba_code.
  destruct (V (WholeDocument p)) as [err|whole] eqn:EV.
  { simpl. repeat split; try discriminate; try congruence.
    intros [(w0 & [=] & _) _]. }
  destruct (_extract_vba_from_parser whole) as [err|[|c out]] eqn:EP.
  { simpl. repeat split; try discriminate; try congruence.
    intros [(w0 & [= <-] & H) _]. congruence. }
  2:{ simpl. repeat split; try discriminate; try congruence.
      intros [(w0 & [= <-] & H) _]. congruence. }
  assert (Hfail : forall (t0 : vba_text) whole0 err,
            @inr string parser whole = inr whole0 ->
            _extract_vba_from_parser whole0 = inl err -> t0 = ExtractFailed err).
  { intros t0 w0 err [= <-] H. congruence. }
  destruct (dsk !! p) as [[ms|ms|fd|n]|] eqn:ED.
  5:{ simpl. repeat split; try discriminate; [|apply Hfail].
      intros [_ [x [=]]]. }
  2,3,4: simpl; repeat split; eauto; try discriminate; apply Hfail.
  destruct (first_stream ms) as [[nm bin]|] eqn:EF.
  - assert (Hshape : forall r0 : vba_text * list event,
      snd r0 = [EvParse (WholeDocument p); EvOpenZip; EvMkstemp;
                EvParse (StreamFile bin); EvUnlinkTemp] ->
      (fallback_attempted (snd r0) = true <->
        (exists whole0, @inr string parser whole = inr whole0 /\
           _extract_vba_from_parser whole0 = inr []) /\
        is_Some (Some (Archive ms))) /\
      (fallback_attempted (snd r0) = true ->
       forall ms0, Some (Archive ms) = Some (Archive ms0) ->
         is_Some (first_stream ms0) ->
         stream_parsed (snd r0) = true /\ In EvUnlinkTemp (snd r0)) /\
      (forall err : string, @inr string parser whole = inl err ->
         fst r0 = ExtractFailed err) /\
      (forall whole0 err, @inr string parser whole = inr whole0 ->
         _extract_vba_from_parser whole0 = inl err ->
         fst r0 = ExtractFailed err)).
    { intros r0 ->. repeat split; eauto; try discriminate; try apply Hfail.
      simpl. auto 10. }
    destruct (V (StreamFile bin)) as [?|p2]; [now apply Hshape|].
    destruct (_extract_vba_from_parser p2); now apply Hshape.
  - simpl. repeat split; eauto; try discriminate; try apply Hfail.
    all: exfalso;
      match goal with
      | Ha : Some (Archive _) = Some (Archive ?m),
        Hs : is_Some (first_stream ?m) |- _ =>
          injection Ha as <-; rewrite EF in Hs; destruct Hs; discriminate
      end.
Qed.

(** ** The pipeline *)

Section PipelineLemmas.

Lemma vba_path_listed dt : In (vba_paths dt) _VBA_BIN_PATHS.
Proof. destruct dt; simpl; auto. Qed.

Lemma stream_path_family nm : In nm _VBA_BIN_PATHS -> exists dt, nm = vba_paths dt.
Proof.
  simpl. intros [<-|[<-|[<-|[]]]];
    [exists word | exists excel | exists ppt]; reflexivity.
Qed.

Lemma tests_of_capable p :
  classify p = MacroCapable ->
  py_in (PyStr.lower (suffix p)) NO_MACRO_EXTS = false /\
  negb (py_in (PyStr.lower (suffix p)) SUPPORTED_EXTS) = false.
Proof.
  unfold classify, classify_lower.
  destruct (py_in _ NO_MACRO_EXTS); [discriminate|].
  destruct (negb _); [discriminate|]. auto.
Qed.

(** A regular file in the unpacked directory comes from the archive. *)
Lemma unzip_no_stream (fault : option string)
    (ms : list (list string * entry)) (g : gmap (list string) node)
    (dt : doc_type) (d : fdata) :
  unzip fault (Archive ms) = inr g -> no_stream ms ->
  g !! vba_paths dt <> Some (File d).
Proof.
  intros Hu Hno Hg. apply (unzip_at _ _ _ _ _ Hu) in Hg.
  rewrite (Hno _ (vba_path_listed dt)) in Hg. discriminate.
Qed.

Lemma has_stream_unzip (fault : option string)
    (ms : list (list string * entry)) (g : gmap (list string) node)
    (dt : doc_type) :
  unzip fault (Archive ms) = inr g ->
  has_stream ms dt = true <-> exists d, g !! vba_paths dt = Some (File d).
Proof.
  intros Hu. unfold has_stream. rewrite (unzip_read_as _ _ _ _ Hu).
  destruct (g !! vba_paths dt) as [[d|]|]; split; try discriminate; eauto.
  all: intros [d' [=]].
Qed.

(** How step 3 goes when the stream is there. *)
Lemma strip_steps (g : gmap (list string) node) (dt : doc_type) (d : fdata) :
  g !! vba_paths dt = Some (File d) -> g !! rels_of dt <> Some Folder ->
  unlink (vba_paths dt) g = inr (delete (vba_paths dt) g) /\
  ((exists_in (delete (vba_paths dt) g) (rels_of dt) = false) \/
   (exists_in (delete (vba_paths dt) g) (rels_of dt) = true /\
    unlink (rels_of dt) (delete (vba_paths dt) g)
    = inr (delete (rels_of dt) (delete (vba_paths dt) g)))).
Proof.
  intros Hg Hrels. split; [now apply (unlink_file _ _ d)|].
  assert (E : delete (vba_paths dt) g !! rels_of dt = g !! rels_of dt)
    by (apply lookup_delete_ne; destruct dt; discriminate).
  unfold exists_in, unlink. rewrite E.
  destruct (g !! rels_of dt) as [[x|]|]; [right | congruence | left].
  - split; [|reflexivity]. apply bool_decide_eq_true_2. eauto.
  - apply bool_decide_eq_false_2. intros [? [=]].
Qed.

End PipelineLemmas.

Example budget_scenario :
  let r := clean_vba_macro Sample.calm Sample.docm false false false Sample.start in
  snd r = Return 1%Z /\
  disk (fst r) !! backup_path Sample.docm = None /\
  vba_size <$> last (history (fst r)) = Some 8%N /\
  (exists ms, disk (fst r) !! Sample.docm = Some (Archive ms) /\
              zip_read ["word"; "vbaProject.bin"] ms = None).
Proof. vm_compute. repeat split; eauto. Qed.

Example invoice_scenario :
  let r := clean_vba_macro Sample.calm Sample.xlsx true true true Sample.start in
  snd r = Return 0%Z /\
  disk (fst r) !! Sample.xlsx = Some Sample.sheet /\
  message <$> last (history (fst r)) = Some msg_no_macro_format.
Proof. vm_compute. repeat split. Qed.

Example report_scenario :
  let r := clean_vba_macro Sample.calm Sample.xlsm false false true Sample.start in
  snd r = Return 0%Z /\
  disk (fst r) !! Sample.xlsm = Some Sample.without_macro /\
  message <$> last (history (fst r)) = Some msg_no_macro_skip.
Proof. vm_compute. repeat split. Qed.

(** A stream stored under a name with a [.] component is extracted to the
    stream path like any other, found and removed. *)
Example dotted_scenario :
  let r := clean_vba_macro Sample.calm Dotted.file false false false Dotted.start in
  snd r = Return 1%Z /\
  zip_read ["word"; "vbaProject.bin"] Dotted.members = None /\
  zip_at ["word"; "vbaProject.bin"] Dotted.members = Some Sample.stream /\
  (exists ms, disk (fst r) !! Dotted.file = Some (Archive ms) /\
              zip_at ["word"; "vbaProject.bin"] ms = None).
Proof. vm_compute. repeat split; eauto. Qed.

(** *** Exceptions *)

(** Unless the report file cannot be written, [clean_vba_macro] returns. *)
Lemma clean_raises_only_on_report_fault e p b gen eng s :
  wp (clean_vba_macro e p b gen eng)
     (fun s' res =>
        forall err, res = Raise err ->
                    gen = true /\ report_fault e (report_writes s) = true) s.
Proof.
  destruct s as [d h l v w]. run_pipeline.
  all: intros err' [=]; auto.
Qed.

(** C7 (failing input).  The input file does not exist, a report is asked
    for, and the current directory cannot be written: the report write
    inside the [try] block raises, the handler's own report write raises
    again, and that error leaves [clean_vba_macro].  The history then
    refers to the same record twice. *)
Theorem report_failure_escapes :
  let r := clean_vba_macro Sample.read_only_cwd Sample.missing false true false
             Sample.start in
  snd r = Raise (OSError "report not written") /\
  _report_history (fst r) = [0; 0]%nat.
Proof. vm_compute. split; reflexivity. Qed.

(** *** Return value *)

(** What a call that returns 1 has gone through. *)
Lemma call_cleared e p b gen eng s :
  wp (clean_vba_macro e p b gen eng)
    (fun s' res =>
       res = Return 1%Z ->
       exists c g dt d t,
         disk s !! p = Some c /\
         classify p = MacroCapable /\
         stream_found e c g dt d /\
         (b = true -> copy_fault e = WriteOk) /\
         repack_fault e = WriteOk /\
         report_written e gen s /\
         _last_vba_size s' = size_of d /\
         stripped g dt t /\ well_formed t /\
         disk s' !! p = Some (Archive (packed t)) /\
         (b = true -> disk s' !! backup_path p = Some c)) s.
Proof.
  destruct s as [d h l v w]. unfold report_written. simpl.
  run_pipeline.
  all: try (intros [=]; fail).
  all: intros _; path_facts e p; tree_facts.
  all: match goal with
       | H : unlink (vba_paths _) _ = inr _ |- _ =>
           destruct (unlink_inr_file _ _ _ H) as [x Hx]
       end.
  all: match goal with
       | Hu : unzip _ _ = inr _ |- _ =>
           pose proof (unzip_well_formed _ _ _ Hu) as Hwf
       end.
  all: eexists _, _, _, x, _.
  all: split; [reflexivity|]; split; [exact Hclass|].
  all: split; [split; [eassumption|]; split; [eassumption|];
               split; [exact Hx | exact Hrels]|].
  all: split; [intros Hb; first [discriminate | assumption]|].
  all: split; [reflexivity|].
  all: split; [intros Hg; first [discriminate | assumption | congruence]|].
  all: split; [match goal with H : _ !! vba_paths _ = Some _ |- _ =>
                 rewrite Hx in H; injection H as <- end; reflexivity|].
  all: split; [exact Hstripped|]; split; [exact (Hwft Hwf)|].
  all: split; [disk_lookup; reflexivity|].
  all: intros Hb; try discriminate; disk_lookup; congruence.
Qed.

(** A stream that is found and can be removed, a backup (if asked for) and
    a repack that go through, and a report (if asked for) that gets
    written: the call returns 1. *)
Lemma cleared_returns_one e p b gen eng s c g dt d :
  disk s !! p = Some c ->
  classify p = MacroCapable ->
  stream_found e c g dt d ->
  (b = true -> copy_fault e = WriteOk) ->
  repack_fault e = WriteOk ->
  report_written e gen s ->
  wp (clean_vba_macro e p b gen eng) (fun s' res => res = Return 1%Z) s.
Proof.
  intros Hc Hcap (Hu & Hd & Hg & Hrels) Hcopy Hrep Hw.
  destruct (tests_of_capable p Hcap) as [Ht1 Ht2].
  destruct (strip_steps g dt d Hg Hrels) as [Hul Hrl].
  destruct s as [d0 h l v w]. unfold report_written in Hw. simpl in Hc, Hw |- *.
  destruct b; [specialize (Hcopy eq_refl)|clear Hcopy].
  all: destruct Hrl as [Hrl | [Hrl Hrl']].
  all: run_pipeline.
  all: try reflexivity.
  all: try congruence.
  all: try (exfalso; rewrite Hw in *; [discriminate | assumption]; fail).
Qed.

(** C5 (as amended).  [clean_vba_macro] returns 1 exactly when the input is
    a macro-capable archive in which step 3 finds the stream of the
    detected family and removes it, the backup copy (with
    [replace_original]) and the repack go through, and the report (with
    [generate_report]) gets written; whatever it returns is 0 or 1; and
    when it returns 1 the input path holds the complete archive repacked
    from the stripped directory. *)
Theorem return_one_iff_cleared_and_reported e p b gen eng s :
  wp (clean_vba_macro e p b gen eng)
     (fun s' res =>
        (res = Return 1%Z <->
         exists c g dt d,
           disk s !! p = Some c /\ classify p = MacroCapable /\
           stream_found e c g dt d /\
           (b = true -> copy_fault e = WriteOk) /\
           repack_fault e = WriteOk /\
           report_written e gen s) /\
        (forall n, res = Return n -> n = 0%Z \/ n = 1%Z) /\
        (res = Return 1%Z ->
         exists c g dt d t,
           disk s !! p = Some c /\ stream_found e c g dt d /\
           stripped g dt t /\
           disk s' !! p = Some (Archive (packed t)))) s.
Proof.
  pose proof (call_cleared e p b gen eng s) as H1.
  assert (H2 : wp (clean_vba_macro e p b gen eng)
                 (fun s' res => forall n, res = Return n -> n = 0%Z \/ n = 1%Z) s).
  { destruct s as [d h l v w]. run_pipeline. all: intros ? [= <-]; auto. }
  unfold wp in *. split; [split|split; [exact H2|]].
  - intros Hres.
    destruct (H1 Hres) as (c & g & dt & d & t & A1 & A2 & A3 & A4 & A5 & A6 & _).
    exists c, g, dt, d.
    exact (conj A1 (conj A2 (conj A3 (conj A4 (conj A5 A6))))).
  - intros (c & g & dt & d & A1 & A2 & A3 & A4 & A5 & A6).
    exact (cleared_returns_one e p b gen eng s c g dt d A1 A2 A3 A4 A5 A6).
  - intros Hres.
    destruct (H1 Hres) as (c & g & dt & d & t & A1 & _ & A3 & _ & _ & _ & _ &
                           A8 & _ & A10 & _).
    exists c, g, dt, d, t. exact (conj A1 (conj A3 (conj A8 A10))).
Qed.

(** C5 (counterexample).  The report is asked for and its first write
    fails: the stream of [letter.docm] has been found and removed and the
    repacked archive is at the input path, yet the value returned is 0. *)
Theorem cleared_but_zero_returned :
  let r := clean_vba_macro Sample.flaky_cwd Sample.docm false true false
             Sample.start in
  snd r = Return 0%Z /\
  zip_at ["word"; "vbaProject.bin"] Sample.members = Some Sample.stream /\
  (exists ms, disk (fst r) !! Sample.docm = Some (Archive ms) /\
              zip_at ["word"; "vbaProject.bin"] ms = None /\
              zip_at ["word"; "document.xml"] ms
              = zip_at ["word"; "document.xml"] Sample.members) /\
  (fun x => (status x, vba_found x, message x)) <$> last (history (fst r))
  = Some (status_success, true, msg_exception (OSError "report not written")).
Proof. vm_compute. repeat split; eauto. Qed.

(** *** What the call leaves at the input path *)

(** C1 (counterexample).  The disk fills up after one member of the
    repacked archive has been written, and no backup was asked for: the
    input path then holds neither the original bytes nor any complete
    archive, and there is no backup. *)
Lemma repack_fault_damages_original :
  let r := clean_vba_macro Sample.disk_full Sample.docm false false false
             Sample.start in
  disk (fst r) !! Sample.docm <> disk Sample.start !! Sample.docm /\
  (forall ms, disk (fst r) !! Sample.docm <> Some (Archive ms)) /\
  disk (fst r) !! backup_path Sample.docm = None /\
  snd r = Return 0%Z.
Proof.
  vm_compute. repeat split; discriminate.
Qed.

(** C1 (amended).  After a call on an input path that is not the report
    file, the path holds the original bytes, or (the repack went through)
    the complete archive repacked from the unpacked input without the
    macro stream of the detected family, or (the repack failed after [k]
    members) the first [k] members of that archive; in the last case 1 is
    not returned and, with [replace_original] set, the backup path holds
    the original bytes. *)
Theorem disk_outcome_of_clean e p b gen eng s :
  p <> report_path e ->
  wp (clean_vba_macro e p b gen eng)
     (fun s' res =>
        disk s' !! p = disk s !! p
        \/ (exists c t,
              disk s !! p = Some c /\ repacked_from e c t /\
              repack_fault e = WriteOk /\
              disk s' !! p = Some (Archive (packed t)))
        \/ (exists c t k,
              disk s !! p = Some c /\ repacked_from e c t /\
              repack_fault e = FailsAfter k /\
              disk s' !! p = Some (Damaged (take k (packed t))) /\
              res <> Return 1%Z /\
              (b = true -> disk s' !! backup_path p = Some c))) s.
Proof.
  intros Hp. destruct s as [d h l v w]. simpl.
  run_pipeline.
  all: path_facts e p; tree_facts.
  all: try (left; disk_lookup; first [reflexivity | assumption]; fail).
  all: match goal with
       | H : unlink (vba_paths _) _ = inr _ |- _ =>
           destruct (unlink_inr_file _ _ _ H) as [x Hx]
       end.
  all: match goal with
       | Hu : unzip _ _ = inr _ |- _ =>
           pose proof (unzip_well_formed _ _ _ Hu) as Hwf
       end.
  all: match goal with
       | Hu : unzip _ ?c = inr ?g, Hd : detect_doc_type ?g = Some ?dt |- _ =>
           assert (Hfrom : repacked_from e c _)
             by (exists g, dt, x; split; [|exact Hstripped];
                 split; [exact Hu|]; split; [exact Hd|];
                 split; [exact Hx | exact Hrels])
       end.
  all: try (right; left; eexists _, _; split; [reflexivity|];
            split; [exact Hfrom|]; split; [reflexivity|];
            disk_lookup; reflexivity).
  all: right; right; eexists _, _, _; split; [reflexivity|];
       split; [exact Hfrom|]; split; [reflexivity|]; split;
       [disk_lookup; reflexivity|]; split; [discriminate|].
  all: intros Hb; try discriminate; disk_lookup; congruence.
Qed.

Lemma disk_outcome_of_clean_witness :
  Sample.docm <> report_path Sample.disk_full /\
  wp (clean_vba_macro Sample.disk_full Sample.docm true true false)
     (fun s' res =>
        disk s' !! Sample.docm = disk Sample.start !! Sample.docm
        \/ (exists c t,
              disk Sample.start !! Sample.docm = Some c /\
              repacked_from Sample.disk_full c t /\
              repack_fault Sample.disk_full = WriteOk /\
              disk s' !! Sample.docm = Some (Archive (packed t)))
        \/ (exists c t k,
              disk Sample.start !! Sample.docm = Some c /\
              repacked_from Sample.disk_full c t /\
              repack_fault Sample.disk_full = FailsAfter k /\
              disk s' !! Sample.docm = Some (Damaged (take k (packed t))) /\
              res <> Return 1%Z /\
              (true = true ->
               disk s' !! backup_path Sample.docm = Some c))) Sample.start.
Proof.
  assert (H : Sample.docm <> report_path Sample.disk_full) by discriminate.
  split; [exact H|].
  exact (disk_outcome_of_clean Sample.disk_full Sample.docm true true false
           Sample.start H).
Defined.

(** *** Backup *)

Lemma sample_unpacks :
  unzip None (Archive Sample.members) = inr Sample.unpacked.
Proof.
  assert (Hok : match extractall Sample.members ∅ with
                | inr _ => true
                | inl _ => false
                end = true) by (vm_compute; reflexivity).
  unfold unzip, Sample.unpacked.
  destruct (extractall Sample.members ∅); [discriminate | reflexivity].
Qed.

Lemma sample_stream_found (e : env) :
  extract_fault e = None ->
  stream_found e Sample.with_macro Sample.unpacked word Sample.stream.
Proof.
  intros He. unfold stream_found, Sample.with_macro. rewrite He.
  split; [exact sample_unpacks|].
  split; [vm_compute; reflexivity|].
  split; [vm_compute; reflexivity|].
  vm_compute. discriminate.
Qed.

(** C4.  With [replace_original] set, on a macro-capable file in which
    step 3 finds the stream of the detected family and removes it: when
    the copy goes through, the backup path holds the original bytes after
    the call, whatever happens to the repack that follows; the input path
    is written to only behind a copy that went through, so that whenever
    it no longer holds the original bytes the backup does; and when the
    copy fails the input path is left as it was. *)
Theorem backup_before_overwrite e p gen eng s c g dt d :
  disk s !! p = Some c ->
  classify p = MacroCapable ->
  stream_found e c g dt d ->
  wp (clean_vba_macro e p true gen eng)
     (fun s' res =>
        (copy_fault e = WriteOk -> disk s' !! backup_path p = Some c) /\
        (disk s' !! p <> Some c ->
         copy_fault e = WriteOk /\ disk s' !! backup_path p = Some c) /\
        (copy_fault e <> WriteOk -> disk s' !! p = Some c)) s.
Proof.
  intros Hc Hcap (Hu & Hd & Hg & Hrels).
  destruct (tests_of_capable p Hcap) as [Ht1 Ht2].
  destruct (strip_steps g dt d Hg Hrels) as [Hul Hrl].
  destruct s as [d0 h l v w]. simpl in Hc |- *.
  destruct Hrl as [Hrl | [Hrl Hrl']].
  all: run_pipeline.
  all: path_facts e p.
  all: try congruence.
  all: repeat match goal with |- _ /\ _ => split end.
  all: try (intros; congruence).
  all: try (intros _; disk_lookup; congruence).
  all: try (intros Hch; first [exfalso; apply Hch; disk_lookup; congruence
                              | split; [assumption | disk_lookup; congruence]]).
  all: try (intros Hne; first [now contradiction Hne | disk_lookup; congruence]).
Qed.

Lemma backup_before_overwrite_witness :
  disk Sample.start !! Sample.docm = Some Sample.with_macro /\
  classify Sample.docm = MacroCapable /\
  stream_found Sample.disk_full Sample.with_macro Sample.unpacked word
    Sample.stream /\
  wp (clean_vba_macro Sample.disk_full Sample.docm true false false)
     (fun s' res =>
        disk s' !! backup_path Sample.docm = Some Sample.with_macro)
     Sample.start.
Proof.
  assert (H1 : disk Sample.start !! Sample.docm = Some Sample.with_macro)
    by (vm_compute; reflexivity).
  assert (H2 : classify Sample.docm = MacroCapable) by reflexivity.
  assert (H3 : stream_found Sample.disk_full Sample.with_macro Sample.unpacked
                 word Sample.stream) by (apply sample_stream_found; reflexivity).
  split; [exact H1|]. split; [exact H2|]. split; [exact H3|].
  destruct (backup_before_overwrite Sample.disk_full Sample.docm false false
              Sample.start Sample.with_macro Sample.unpacked word Sample.stream
              H1 H2 H3) as (A & _).
  unfold wp in *. apply A. reflexivity.
Defined.

(** The disk fills up during the repack: the backup is there, the input
    path holds an incomplete archive. *)
Example backup_made_before_fault :
  let r := clean_vba_macro Sample.disk_full Sample.docm true false false
             Sample.start in
  snd r = Return 0%Z /\
  disk (fst r) !! backup_path Sample.docm = Some Sample.with_macro /\
  exists written, disk (fst r) !! Sample.docm = Some (Damaged written).
Proof. vm_compute. repeat split. eauto. Qed.

(** The copy itself fails half way: the input path is as it was, beside a
    truncated backup. *)
Example backup_fault_leaves_original :
  let e := Env (now_stamp Sample.calm) (now_file Sample.calm) (cwd Sample.calm)
             (st_size Sample.calm) None None (fun _ => false) (FailsAfter 2)
             WriteOk (fun _ => false) in
  let r := clean_vba_macro e Sample.docm true false false Sample.start in
  snd r = Return 0%Z /\
  disk (fst r) !! Sample.docm = Some Sample.with_macro /\
  disk (fst r) !! backup_path Sample.docm
  = Some (Damaged (take 2 Sample.members)).
Proof. vm_compute. repeat split. Qed.

(** *** Family priority *)



(** *** Classification by extension *)

(** C8 (counterexample).  The report is asked for and its first write
    fails: the handler takes over the record of [invoice.xlsx], which
    already says success; the call returns 0, but the message is the error
    text, not "format does not support macros". *)
Theorem report_failure_after_success :
  let r := clean_vba_macro Sample.flaky_cwd Sample.xlsx false true false
             Sample.start in
  classify Sample.xlsx = MacroIncapable /\
  snd r = Return 0%Z /\
  (fun x => (status x, message x)) <$> last (history (fst r))
  = Some (status_success, msg_exception (OSError "report not written")) /\
  _report_history (fst r) = [0; 0]%nat.
Proof. vm_compute. repeat split. Qed.

(** C8 (as amended).  For an existing input file whose report, if asked
    for, gets written: the six macro-capable extensions lead into the
    pipeline (the file is measured, a file that can be read and is no zip
    archive is reported as such, and the record carries neither of the two
    messages of the other classes), the nineteen macro-incapable ones end in
    Success / "format does not support macros" with 0 returned and the
    file as it was, and every other extension ends in Failed /
    "unsupported format" with 0 returned. *)
Theorem classification_by_extension e p b gen eng s c :
  disk s !! p = Some c ->
  report_written e gen s ->
  (classify p = MacroCapable <->
   In (PyStr.lower (suffix p))
      [".docm"; ".dotm"; ".xlsm"; ".xltm"; ".pptm"; ".potm"]) /\
  (classify p = MacroIncapable <->
   In (PyStr.lower (suffix p))
      [".xlsx"; ".xlsb"; ".xltx"; ".xls"; ".docx"; ".dotx"; ".doc";
       ".pptx"; ".potx"; ".ppsx"; ".ppt"; ".odt"; ".ods"; ".odp";
       ".rtf"; ".pdf"; ".txt"; ".csv"; ".xml"]) /\
  wp (clean_vba_macro e p b gen eng)
     (fun s' res =>
        exists r, last (history s') = Some r /\
        match classify p with
        | MacroIncapable =>
            res = Return 0%Z /\ disk s' !! p = Some c /\
            status r = status_success /\ message r = msg_no_macro_format /\
            output_path r = Some p /\ vba_found r = false
        | Unsupported =>
            res = Return 0%Z /\
            status r = status_fail /\
            message r = msg_unsupported_format (suffix p)
        | MacroCapable =>
            original_md5 r = _get_file_meta e 0 (disk s) p /\
            file_size r = st_size e c /\
            ((forall ms, c <> Archive ms) -> extract_fault e = None ->
             res = Return 0%Z /\ message r = msg_invalid_format) /\
            message r <> msg_no_macro_format /\
            (forall x, message r <> msg_unsupported_format x)
        end) s.
Proof.
  intros Hc Hw. split; [|split].
  - unfold classify, classify_lower.
    destruct (py_in _ NO_MACRO_EXTS) eqn:E1.
    + split; [discriminate|]. intros H. exfalso.
      apply py_in_spec in E1. cbn in H, E1.
      repeat (destruct H as [H|H];
        [rewrite <- H in E1; cbn in E1; intuition discriminate|]).
      destruct H.
    + fold SUPPORTED_EXTS. rewrite <- py_in_spec.
      destruct (py_in _ SUPPORTED_EXTS); simpl; split; congruence.
  - unfold classify, classify_lower. fold NO_MACRO_EXTS.
    rewrite <- py_in_spec.
    destruct (py_in _ NO_MACRO_EXTS); [tauto|].
    destruct (negb _); split; congruence.
  - destruct s as [d h l v w]. unfold report_written in Hw. simpl in Hc, Hw.
    run_pipeline.
    all: try (exfalso; rewrite Hw in *; [discriminate | assumption]; fail).
    all: path_facts e p; rewrite ?Hclass.
    all: its_record; eexists; (split; [reflexivity|]).
    all: cbn.
    all: repeat match goal with |- _ /\ _ => split end.
    all: try reflexivity.
    all: try discriminate.
    all: try (disk_lookup; congruence).
    all: try (intros Hna Hf; first [split; reflexivity | exfalso]).
    all: match goal with
         | Hu : unzip _ ?c = _, Hna : forall ms, ?c <> Archive ms |- _ =>
             rewrite Hf in Hu;
             destruct c; try (now contradiction (Hna members)); discriminate
         end.
Qed.

Lemma classification_by_extension_witness :
  disk Sample.start !! Sample.xlsx = Some Sample.sheet /\
  report_written Sample.calm true Sample.start /\
  wp (clean_vba_macro Sample.calm Sample.xlsx false true false)
     (fun s' res => res = Return 0%Z /\
                    disk s' !! Sample.xlsx = Some Sample.sheet) Sample.start.
Proof.
  assert (H1 : disk Sample.start !! Sample.xlsx = Some Sample.sheet)
    by (vm_compute; reflexivity).
  assert (H2 : report_written Sample.calm true Sample.start)
    by (intros _; reflexivity).
  split; [exact H1|]. split; [exact H2|].
  destruct (classification_by_extension Sample.calm Sample.xlsx false true
              false Sample.start Sample.sheet H1 H2) as (_ & _ & Hwp).
  unfold wp in *. destruct Hwp as (r & _ & Hm).
  change (classify Sample.xlsx) with MacroIncapable in Hm.
  destruct Hm as (A & B & _). split; assumption.
Defined.

(** *** Files without a macro stream *)

(** An existing file whose extension is macro-incapable, or a macro-capable
    archive from which unpacking brings no file to any of the three stream
    paths, keeps its bytes; nothing but the report file is written (so no
    repack takes place); no value other than 0 is returned, and 0 is
    returned whenever the report, if asked for, gets written. *)
Lemma streamless_untouched e p b gen eng s c :
  disk s !! p = Some c ->
  classify p = MacroIncapable \/
  (classify p = MacroCapable /\ exists ms, c = Archive ms /\ no_stream ms) ->
  wp (clean_vba_macro e p b gen eng)
     (fun s' res =>
        disk s' !! p = Some c /\
        (forall q, q <> report_path e -> disk s' !! q = disk s !! q) /\
        (forall n, res = Return n -> n = 0%Z) /\
        (report_written e gen s -> res = Return 0%Z)) s.
Proof.
  intros Hc Habs. destruct s as [d h l v w].
  unfold report_written. simpl in Hc |- *.
  run_pipeline.
  all: path_facts e p.
  all: try (destruct Habs as [Habs|[Habs _]]; congruence).
  all: try match goal with
       | H : unlink (vba_paths ?dt) ?g = inr _ |- _ =>
           exfalso; destruct Habs as [Habs|(_ & ms & -> & Hno)]; [congruence|];
           apply unlink_inr_file in H as [x Hx];
           match goal with
           | Hu : unzip _ _ = inr g |- _ =>
               exact (unzip_no_stream _ _ _ _ _ Hu Hno Hx)
           end
       end.
  all: repeat split; try (intros ? [= <-]; reflexivity);
       try (intros Hw; try reflexivity; rewrite Hw in *; [discriminate|assumption]).
  all: try (disk_lookup; congruence).
  all: try (intros q Hq; disk_lookup; reflexivity).
Qed.

(** C3 (failing input).  A report is asked for and the current directory
    cannot be written: on [invoice.xlsx], whose format has no macros, and
    on [report.xlsm], a workbook without a stream, the call does not return
    0 but raises (the report write of the handler fails as the first one
    did).  Both files keep their bytes. *)
Theorem no_macro_report_failure_escapes :
  let r1 := clean_vba_macro Sample.read_only_cwd Sample.xlsx false true false
              Sample.start in
  let r2 := clean_vba_macro Sample.read_only_cwd Sample.xlsm false true false
              Sample.start in
  classify Sample.xlsx = MacroIncapable /\
  snd r1 = Raise (OSError "report not written") /\
  disk (fst r1) !! Sample.xlsx = disk Sample.start !! Sample.xlsx /\
  classify Sample.xlsm = MacroCapable /\
  zip_at ["xl"; "vbaProject.bin"] Sample.clean_members = None /\
  snd r2 = Raise (OSError "report not written") /\
  disk (fst r2) !! Sample.xlsm = disk Sample.start !! Sample.xlsm.
Proof. vm_compute. repeat split. Qed.

(* ================================================================== *)
(** * Further properties of the code *)
(* ================================================================== *)

(** ** The record of a call *)

Lemma call_record e p b gen eng s :
  wp (clean_vba_macro e p b gen eng)
    (fun s' res =>
       (forall j, j <> fresh (dom (heap s)) -> heap s' !! j = heap s !! j) /\
       (_report_history s' = _report_history s ++ [fresh (dom (heap s))] \/
        (gen = true /\ report_fault e (report_writes s) = true /\
         _report_history s'
         = (_report_history s ++ [fresh (dom (heap s))]) ++ [fresh (dom (heap s))])) /\
       exists r, heap s' !! fresh (dom (heap s)) = Some r /\
         file_path r = p /\ file_name r = name p /\
         timestamp r = now_stamp e /\ is_english r = eng /\
         _last_vba_size s' = vba_size r /\
         (vba_found r = false -> vba_size r = 0%N) /\
         (vba_found r = true -> is_Some (vba_code r)) /\
         (original_md5 r = None \/ original_md5 r = disk s !! p) /\
         (forall c, output_md5 r = Some c ->
            status r = status_success /\ output_path r = Some p /\
            (p <> report_path e -> disk s' !! p = Some c)) /\
         (res = Return 1%Z -> found_and_saved r = true) /\
         (report_written e gen s ->
          res = Return (if found_and_saved r then 1 else 0)%Z)) s.
Proof.
  destruct s as [d h l v w]. unfold report_written. simpl.
  run_pipeline.
  all: path_facts e p.
  all: try erewrite from_option_lookup by heap_lookup.
  all: split;
    [intros j Hj;
     rewrite ?lookup_alter_ne by (apply not_eq_sym, Hj);
     apply lookup_insert_ne, not_eq_sym, Hj|].
  all: split; [first [left; reflexivity | right; repeat split; assumption]|].
  all: eexists; split; [heap_lookup|]; cbn.
  all: repeat match goal with |- _ /\ _ => split end.
  all: try reflexivity.
  all: try discriminate.
  all: try (intros _; eauto; fail).
  all: try (first [left; reflexivity | right; first [reflexivity | symmetry; assumption]]; fail).
  all: try (intros c0 [=]; fail).
  all: try (intros Hw; try reflexivity; exfalso; rewrite Hw in *; [discriminate | assumption]; fail).
  all: try (first [ apply get_file_meta_cases
                  | match goal with
                    | H : ?d0 !! ?p0 = Some ?c |- _ \/ _ = Some ?c =>
                        rewrite <- H; apply get_file_meta_cases
                    end ]; fail).
  all: intros c' Hc'; unfold _get_file_meta in Hc';
    match type of Hc' with context [meta_fault ?e0 ?k0] => destruct (meta_fault e0 k0) end;
    [discriminate|];
    split; [reflexivity|]; split; [reflexivity|];
    intros Hpr; rewrite <- Hc'; disk_lookup; first [reflexivity | assumption].
Qed.

Lemma fresh_not_allocated s j :
  is_Some (heap s !! j) -> j <> fresh (dom (heap s)).
Proof.
  intros H ->. apply elem_of_dom in H. now apply is_fresh in H.
Qed.

Lemma history_snoc s s' rid r :
  allocated s ->
  (forall j, j <> rid -> heap s' !! j = heap s !! j) ->
  rid = fresh (dom (heap s)) ->
  heap s' !! rid = Some r ->
  forall tail, Forall (fun j => j = rid) tail ->
    _report_history s' = _report_history s ++ tail ->
    history s' = history s ++ map (fun _ => r) tail /\ allocated s'.
Proof.
  intros Ha Hold -> Hr tail Htail Hh. split.
  - unfold history. rewrite Hh, omap_app. f_equal.
    + apply list_omap_ext. apply Forall2_same_length_lookup_2; [reflexivity|].
      intros i x y Hx Hy. rewrite Hx in Hy. injection Hy as <-.
      apply Hold, fresh_not_allocated, Ha.
      apply list_elem_of_In, list_elem_of_lookup. eauto.
    + clear Hh. induction Htail as [|j tail -> _ IH]; [reflexivity|].
      simpl. rewrite Hr. simpl. f_equal. exact IH.
  - intros j Hj. rewrite Hh in Hj. apply in_app_or in Hj as [Hj|Hj].
    + rewrite Hold; [now apply Ha|]. now apply fresh_not_allocated, Ha.
    + rewrite Forall_forall in Htail.
      apply list_elem_of_In, Htail in Hj as ->. eauto.
Qed.

Lemma last_history_refs s' l rid r :
  _report_history s' = l ++ [rid] -> heap s' !! rid = Some r ->
  last (history s') = Some r.
Proof.
  intros Hh Hr. unfold history. rewrite Hh, omap_app. simpl. rewrite Hr.
  apply last_snoc.
Qed.

Lemma call_last_record e p b gen eng s :
  wp (clean_vba_macro e p b gen eng)
     (fun s' res =>
        exists r, heap s' !! fresh (dom (heap s)) = Some r /\
                  last (history s') = Some r) s.
Proof.
  pose proof (call_record e p b gen eng s) as H. unfold wp in *.
  destruct H as (_ & Hh & r & Hr & _). exists r. split; [exact Hr|].
  destruct Hh as [Hh|(_ & _ & Hh)]; eapply last_history_refs; eauto.
Qed.

(** One call on a state whose history is allocated: the history grows by
    the record of the call, once (twice only when the report could not be
    written), and the record carries the facts of the call. *)
Lemma call_summary e p b gen eng s :
  allocated s ->
  wp (clean_vba_macro e p b gen eng)
     (fun s' res =>
        allocated s' /\
        exists r,
          file_path r = p /\ file_name r = name p /\
          timestamp r = now_stamp e /\ is_english r = eng /\
          _last_vba_size s' = vba_size r /\
          (history s' = history s ++ [r] \/ history s' = history s ++ [r; r]) /\
          (report_written e gen s ->
           history s' = history s ++ [r] /\
           res = Return (if found_and_saved r then 1 else 0)%Z)) s.
Proof.
  intros Ha. pose proof (call_record e p b gen eng s) as H. unfold wp in *.
  destruct H as (Hold & Hh & r & Hr & Hp & Hn & Ht & He & Hv & _ & _ & _ & _ & _ & Hres).
  destruct Hh as [Hh|(Hg & Hf & Hh)].
  - destruct (history_snoc _ _ _ _ Ha Hold eq_refl Hr
                [fresh (dom (heap s))] ltac:(repeat constructor) Hh) as [H1 H2].
    split; [exact H2|]. exists r. repeat (split; [assumption|]).
    split; [now left|]. intros Hw. split; [exact H1 | exact (Hres Hw)].
  - rewrite <- app_assoc in Hh.
    destruct (history_snoc _ _ _ _ Ha Hold eq_refl Hr
                [fresh (dom (heap s)); fresh (dom (heap s))]
                ltac:(repeat constructor) Hh) as [H1 H2].
    split; [exact H2|]. exists r. repeat (split; [assumption|]).
    split; [now right|]. intros Hw. specialize (Hw Hg). congruence.
Qed.

Lemma sample_allocated : allocated Sample.start.
Proof. intros j []. Qed.





(** X3.  [get_last_vba_size] after a call is the [vba_size] of the
    record the call has just appended, and it is 0 when that record says
    that no macro was found: a size left by an earlier call never shows. *)
Theorem last_vba_size_is_the_records e p b gen eng s :
  wp (clean_vba_macro e p b gen eng)
     (fun s' res =>
        exists r, last (history s') = Some r /\
          get_last_vba_size s' = vba_size r /\
          (vba_found r = false -> get_last_vba_size s' = 0%N)) s.
Proof.
  pose proof (call_record e p b gen eng s) as H.
  pose proof (call_last_record e p b gen eng s) as H'. unfold wp in *.
  destruct H as (_ & _ & r & Hr & _ & _ & _ & _ & Hv & H0 & _).
  destruct H' as (r' & Hr' & Hl). rewrite Hr in Hr'. injection Hr' as <-.
  exists r. unfold get_last_vba_size. repeat split; auto.
  intros Hf. rewrite Hv. auto.
Qed.

(** X4.  The digests in the record are those of the files: the digest
    of the original is empty or that of the content the input path held
    before the call; an output digest is recorded only together with
    success and the input path as output path, and it is the digest of
    what the input path holds after the call. *)
Theorem recorded_hashes_are_accurate e p b gen eng s :
  wp (clean_vba_macro e p b gen eng)
     (fun s' res =>
        exists r, last (history s') = Some r /\
          (original_md5 r = None \/ original_md5 r = disk s !! p) /\
          (forall c, output_md5 r = Some c ->
             status r = status_success /\ output_path r = Some p /\
             (p <> report_path e -> disk s' !! p = Some c))) s.
Proof.
  pose proof (call_record e p b gen eng s) as H.
  pose proof (call_last_record e p b gen eng s) as H'. unfold wp in *.
  destruct H as (_ & _ & r & Hr & _ & _ & _ & _ & _ & _ & _ & Ho & Hout & _).
  destruct H' as (r' & Hr' & Hl). rewrite Hr in Hr'. injection Hr' as <-.
  exists r. auto.
Qed.

Lemma run_batch_cons e p jobs b gen eng cnt tot s :
  run_batch ((e, p) :: jobs) b gen eng cnt tot s
  = match clean_vba_macro e p b gen eng s with
    | (s1, Return n) =>
        run_batch jobs b gen eng (cnt + n)%Z (tot + get_last_vba_size s1)%N s1
    | (s1, Raise err) => (s1, Raise err)
    end.
Proof.
  cbn [run_batch]. unfold bind at 1.
  destruct (clean_vba_macro e p b gen eng s) as [s1 [n|err]]; reflexivity.
Qed.

Lemma saved_count_cons r rs :
  saved_count (r :: rs)
  = ((if found_and_saved r then 1 else 0) + saved_count rs)%Z.
Proof.
  unfold saved_count. rewrite filter_cons.
  destruct (found_and_saved r); case_decide; try congruence;
    cbn [length]; lia.
Qed.

Lemma saved_count_bounds rs :
  (0 <= saved_count rs <= Z.of_nat (length rs))%Z.
Proof.
  unfold saved_count. pose proof (length_filter (fun r => found_and_saved r = true) rs).
  lia.
Qed.

Lemma run_batch_spec jobs b gen eng : forall s cnt tot,
  allocated s ->
  (gen = true -> Forall (fun j => forall k, report_fault (fst j) k = false) jobs) ->
  wp (run_batch jobs b gen eng cnt tot)
     (fun s' res =>
        allocated s' /\
        exists rs, history s' = history s ++ rs /\
          map file_path rs = map snd jobs /\
          res = Return ((cnt + saved_count rs)%Z, (tot + total_size rs)%N)) s.
Proof.
  induction jobs as [|[e p] jobs IH]; intros s cnt tot Ha Hf.
  - unfold wp; simpl. split; [exact Ha|]. exists [].
    rewrite app_nil_r. unfold saved_count, total_size; simpl.
    rewrite Z.add_0_r, N.add_0_r. auto.
  - assert (Hw : report_written e gen s).
    { intros Hg. specialize (Hf Hg). inversion Hf; subst. auto. }
    pose proof (call_summary e p b gen eng s Ha) as H1.
    unfold wp in H1 |- *. rewrite run_batch_cons.
    destruct (clean_vba_macro e p b gen eng s) as [s1 res1]; simpl in *.
    destruct H1 as (Ha1 & r & Hp & _ & _ & _ & Hv & _ & Hres).
    destruct (Hres Hw) as [Hh ->].
    assert (Hf' : gen = true ->
              Forall (fun j => forall k, report_fault (fst j) k = false) jobs).
    { intros Hg. specialize (Hf Hg). now inversion Hf. }
    specialize (IH s1 (cnt + (if found_and_saved r then 1 else 0))%Z
                  (tot + get_last_vba_size s1)%N Ha1 Hf').
    unfold wp in IH. destruct IH as (Ha' & rs & Hh' & Hm & Hres').
    split; [exact Ha'|]. exists (r :: rs).
    rewrite Hh', Hh, <- app_assoc. split; [reflexivity|].
    split; [simpl; congruence|].
    rewrite Hres', saved_count_cons. unfold get_last_vba_size. rewrite Hv.
    cbn [total_size fold_right].
    f_equal. f_equal; [lia|]. fold (total_size rs). lia.
Qed.



(** ** Unpacking and repacking *)

(** X6.  Unpack, repack, unpack: the archive [_repack_docx] writes from an
    unpacked directory can be unpacked again without error, and doing so
    yields a part of that directory that holds every regular file below it
    with its bytes (directories that hold no file are not written into the
    archive). *)
Theorem repack_then_unpack (fault : option string)
    (ms : list (list string * entry)) (t : gmap (list string) node) :
  unzip fault (Archive ms) = inr t ->
  exists t' : gmap (list string) node,
    (unzip None (Archive (packed t)) = inr t') /\
    (t' ⊆ t) /\
    forall q d, t' !! q = Some (File d) <-> q <> [] /\ t !! q = Some (File d).
Proof.
  intros Hu. pose proof (unzip_well_formed _ _ _ Hu) as Hwf.
  destruct (packed_unpacks t Hwf) as (t' & Hu' & Hsub & Hf).
  exists t'. split; [exact Hu'|]. split; [exact Hsub|].
  intros q d. split.
  - intros Hq.
    assert (Hne : q <> []).
    { intros ->. apply (unzip_at _ _ _ _ _ Hu') in Hq.
      rewrite zip_at_normal in Hq by now apply packed_normal.
      apply zip_read_elem, packed_elem in Hq as [Hq _]. congruence. }
    split; [exact Hne|]. now apply Hf.
  - intros [Hne Hq]. now apply Hf.
Qed.

Lemma repack_then_unpack_witness :
  unzip None (Archive Sample.members) = inr Sample.unpacked /\
  exists t' : gmap (list string) node,
    (unzip None (Archive (packed Sample.unpacked)) = inr t') /\
    (t' ⊆ Sample.unpacked) /\
    forall q d, t' !! q = Some (File d)
                <-> q <> [] /\ Sample.unpacked !! q = Some (File d).
Proof.
  split; [exact sample_unpacks|].
  exact (repack_then_unpack None Sample.members Sample.unpacked sample_unpacks).
Defined.

(** ** What a successful call leaves behind *)

(** X7.  What a call that returns 1 leaves at the input path, member by
    member ([zip_at] is the file that unpacking brings to a path): the input
    was an archive with a file at the stream path of the detected family,
    whose size is what [get_last_vba_size] reports; the new archive has
    nothing at that stream path nor at its [.rels] neighbour; the manifest
    [[Content_Types].xml], when it is UTF-8 text, is the sanitized
    manifest, and otherwise as it was; at every other path the new archive
    has the file the original has; and the member names of the new archive
    are normal, so that [zf.read] finds the same. *)
Theorem cleared_archive_members e p b gen eng s :
  wp (clean_vba_macro e p b gen eng)
    (fun s' res =>
       res = Return 1%Z ->
       exists ms ms' dt d,
         disk s !! p = Some (Archive ms) /\
         disk s' !! p = Some (Archive ms') /\
         zip_at (vba_paths dt) ms = Some d /\
         get_last_vba_size s' = size_of d /\
         zip_at (vba_paths dt) ms' = None /\
         zip_at (rels_of dt) ms' = None /\
         (forall q, q <> vba_paths dt -> q <> rels_of dt ->
                    q <> content_types_path ->
                    zip_at q ms' = zip_at q ms) /\
         zip_at content_types_path ms'
         = match zip_at content_types_path ms with
           | Some (Utf8 c) => Some (Utf8 (Manifest.sanitize c))
           | o => o
           end /\
         (forall q, zip_read q ms' = zip_at q ms')) s.
Proof.
  pose proof (call_cleared e p b gen eng s) as H. unfold wp in *.
  intros Hres.
  destruct (H Hres) as (c & g & dt & d & t & Hc & _ & (Hu & Hdt & Hd & _) & _ &
                        _ & _ & Hsz & (S1 & S2 & S3 & S4) & Hwf & Hp & _).
  destruct (unzip_archive _ _ _ Hu) as (ms & -> & _).
  pose proof (unzip_well_formed _ _ _ Hu) as Hwfg.
  assert (Hroot : g !! [] = Some Folder).
  { apply (proj1 Hwfg _ _ _ Hd). destruct dt; simpl; left. }
  exists ms, (packed t), dt, d.
  rewrite !zip_at_packed by first [exact Hwf | destruct dt; discriminate | discriminate].
  rewrite S1, S2, S4, !(unzip_read_as _ _ _ _ Hu), Hd.
  repeat split; try assumption.
  - intros q Q1 Q2 Q3. rewrite (unzip_read_as _ _ _ _ Hu).
    destruct q as [|x q].
    + rewrite Hroot, zip_at_normal by now apply packed_normal.
      destruct (zip_read [] (packed t)) eqn:E; [|reflexivity].
      apply zip_read_elem, packed_elem in E as [E _]. congruence.
    + rewrite zip_at_packed by first [exact Hwf | discriminate]. now rewrite S3.
  - destruct (g !! content_types_path) as [[[?|?]|]|]; reflexivity.
  - intros q. symmetry. apply zip_at_normal. now apply packed_normal.
Qed.

(** X8.  The archive a call that returns 1 leaves at the input path is
    well formed: it unpacks without error, into a directory that holds a
    file exactly where the archive has a member. *)
Theorem cleared_archive_unpacks e p b gen eng s :
  wp (clean_vba_macro e p b gen eng)
    (fun s' res =>
       res = Return 1%Z ->
       exists ms' t',
         disk s' !! p = Some (Archive ms') /\
         unzip None (Archive ms') = inr t' /\
         forall q d, t' !! q = Some (File d) <-> zip_read q ms' = Some d) s.
Proof.
  pose proof (call_cleared e p b gen eng s) as H. unfold wp in *.
  intros Hres.
  destruct (H Hres) as (c & g & dt & d & t & _ & _ & _ & _ & _ & _ & _ & _ &
                        Hwf & Hp & _).
  destruct (packed_unpacks t Hwf) as (t' & Hu & _).
  exists (packed t), t'. split; [exact Hp|]. split; [exact Hu|].
  intros q d0. rewrite <- (zip_at_normal q (packed t)) by now apply packed_normal.
  exact (unzip_at None (packed t) t' q d0 Hu).
Qed.

Lemma one_family_only (ms : list (list string * entry)) (dt dt' : doc_type)
    (d : fdata) :
  (length (stream_families ms) <= 1)%nat ->
  zip_at (vba_paths dt) ms = Some d -> dt' <> dt ->
  zip_at (vba_paths dt') ms = None.
Proof.
  intros Hlen Hd Hne.
  destruct (zip_at (vba_paths dt') ms) as [d'|] eqn:E; [exfalso|reflexivity].
  unfold stream_families, has_stream in Hlen.
  destruct dt, dt'; try congruence; simpl in Hlen, Hd, E;
    rewrite ?Hd, ?E in Hlen; simpl in Hlen;
    repeat match type of Hlen with
      | context [match ?x with Some _ => _ | None => _ end] =>
          destruct x; simpl in Hlen
      end; lia.
Qed.

(** X9.  Cleaning twice.  If unpacking the archive leaves a stream file
    under at most one of the three families and a first call returns 1,
    then a second call on the same path, whatever its options and
    environment, leaves the path as the first call left it, writes nothing
    but its report file, returns no value other than 0, and returns 0 when
    its report, if asked for, gets written. *)
Theorem second_clean_changes_nothing e e2 p b gen eng b2 gen2 eng2 s ms :
  disk s !! p = Some (Archive ms) ->
  (length (stream_families ms) <= 1)%nat ->
  wp (clean_vba_macro e p b gen eng)
    (fun s1 res1 =>
       res1 = Return 1%Z ->
       wp (clean_vba_macro e2 p b2 gen2 eng2)
         (fun s2 res2 =>
            disk s2 !! p = disk s1 !! p /\
            (forall q, q <> report_path e2 -> disk s2 !! q = disk s1 !! q) /\
            (forall n, res2 = Return n -> n = 0%Z) /\
            (report_written e2 gen2 s1 -> res2 = Return 0%Z)) s1) s.
Proof.
  intros Hms Hlen.
  pose proof (call_cleared e p b gen eng s) as H. unfold wp at 1. unfold wp in H.
  intros Hres.
  destruct (H Hres) as (c & g & dt & d & t & Hc & Hcap & (Hu & _ & Hd & _) & _ &
                        _ & _ & _ & (S1 & _ & S3 & _) & Hwf & Hp & _).
  rewrite Hms in Hc. injection Hc as <-.
  assert (Hno : no_stream (packed t)).
  { intros nm Hnm. destruct (stream_path_family nm Hnm) as [dt' ->].
    rewrite zip_at_packed by first [exact Hwf | destruct dt'; discriminate].
    assert (Hdec : dt' = dt \/ dt' <> dt)
      by (destruct dt, dt'; first [left; reflexivity | right; discriminate]).
    destruct Hdec as [->|Hne]; [now rewrite S1|].
    rewrite S3 by (destruct dt, dt'; first [discriminate | congruence]).
    rewrite <- (unzip_read_as _ _ _ _ Hu).
    apply (one_family_only ms dt dt' d Hlen); [|exact Hne].
    rewrite (unzip_read_as _ _ _ _ Hu), Hd. reflexivity. }
  pose proof (streamless_untouched e2 p b2 gen2 eng2 _ (Archive (packed t)) Hp
                (or_intror (conj Hcap (ex_intro _ (packed t) (conj eq_refl Hno)))))
    as H2.
  unfold wp in *. rewrite Hp. exact H2.
Qed.

Lemma second_clean_changes_nothing_witness :
  disk Budget.start !! Budget.file = Some (Archive Budget.members) /\
  (length (stream_families Budget.members) <= 1)%nat /\
  wp (clean_vba_macro Sample.calm Budget.file false true false)
    (fun s1 res1 =>
       res1 = Return 1%Z ->
       wp (clean_vba_macro Sample.calm Budget.file false true false)
         (fun s2 res2 =>
            disk s2 !! Budget.file = disk s1 !! Budget.file /\
            (forall q, q <> report_path Sample.calm ->
                       disk s2 !! q = disk s1 !! q) /\
            (forall n, res2 = Return n -> n = 0%Z) /\
            (report_written Sample.calm true s1 -> res2 = Return 0%Z)) s1)
    Budget.start.
Proof.
  assert (H1 : disk Budget.start !! Budget.file = Some (Archive Budget.members))
    by (vm_compute; reflexivity).
  assert (H2 : (length (stream_families Budget.members) <= 1)%nat)
    by (vm_compute; lia).
  split; [exact H1|]. split; [exact H2|].
  exact (second_clean_changes_nothing Sample.calm Sample.calm Budget.file
           false true false false true false Budget.start Budget.members H1 H2).
Defined.

Example budget_is_cleared :
  snd (clean_vba_macro Sample.calm Budget.file false true false Budget.start)
  = Return 1%Z.
Proof. vm_compute. reflexivity. Qed.

(** X12.  An existing file whose extension is macro-incapable, or a
    macro-capable archive from which unpacking brings no file to any of
    the three stream paths, keeps its bytes for every fault; nothing but
    the report file is written (so no repack takes place); no value other
    than 0 is returned, and 0 is returned whenever the report, if asked
    for, gets written. *)
Theorem no_macro_file_untouched e p b gen eng s c :
  disk s !! p = Some c ->
  classify p = MacroIncapable \/
  (classify p = MacroCapable /\ exists ms, c = Archive ms /\ no_stream ms) ->
  wp (clean_vba_macro e p b gen eng)
     (fun s' res =>
        disk s' !! p = Some c /\
        (forall q, q <> report_path e -> disk s' !! q = disk s !! q) /\
        (forall n, res = Return n -> n = 0%Z) /\
        (report_written e gen s -> res = Return 0%Z)) s.
Proof. exact (streamless_untouched e p b gen eng s c). Qed.

Lemma no_macro_file_untouched_witness :
  disk Sample.start !! Sample.xlsm = Some Sample.without_macro /\
  (classify Sample.xlsm = MacroCapable /\
   exists ms, Sample.without_macro = Archive ms /\ no_stream ms) /\
  wp (clean_vba_macro Sample.calm Sample.xlsm true true false)
     (fun s' res => disk s' !! Sample.xlsm = Some Sample.without_macro /\
                    res = Return 0%Z) Sample.start.
Proof.
  assert (H1 : disk Sample.start !! Sample.xlsm = Some Sample.without_macro)
    by (vm_compute; reflexivity).
  assert (H2 : classify Sample.xlsm = MacroCapable /\
               exists ms, Sample.without_macro = Archive ms /\ no_stream ms).
  { split; [reflexivity|]. exists Sample.clean_members. split; [reflexivity|].
    intros nm Hnm. simpl in Hnm.
    destruct Hnm as [<-|[<-|[<-|[]]]]; vm_compute; reflexivity. }
  split; [exact H1|]. split; [exact H2|].
  destruct (no_macro_file_untouched Sample.calm Sample.xlsm true true false
              Sample.start Sample.without_macro H1 (or_intror H2))
    as (A & _ & _ & B).
  unfold wp in *. split; [exact A | apply B; intros _; reflexivity].
Defined.

(** ** Effects on the disk, and failures *)


(** The record and the return value of a call whose report, if asked
    for, gets written, on the ways into a failure that are decided before
    the working directory is touched. *)
Lemma missing_file_reported e p b gen eng s :
  report_written e gen s -> disk s !! p = None ->
  wp (clean_vba_macro e p b gen eng)
    (fun s' res =>
       res = Return 0%Z /\ (p <> report_path e -> disk s' !! p = None) /\
       exists r, last (history s') = Some r /\
         status r = status_fail /\ message r = msg_file_not_found /\
         original_md5 r = None) s.
Proof.
  intros Hw Hc. destruct s as [d h l v w]. unfold report_written in Hw.
  simpl in Hw, Hc |- *.
  run_pipeline.
  all: try (exfalso; rewrite Hw in *; [discriminate|assumption]).
  all: its_record.
  all: split; [reflexivity|]; split; [intros Hp; disk_lookup; assumption|].
  all: eexists; split; [reflexivity|]; cbn; repeat split.
Qed.

Lemma unreadable_file_reported e p b gen eng s c x m :
  report_written e gen s -> disk s !! p = Some c ->
  classify p = MacroCapable ->
  unzip (extract_fault e) c = inl x ->
  m = match x with BadZipFile => msg_invalid_format | _ => msg_exception x end ->
  wp (clean_vba_macro e p b gen eng)
    (fun s' res =>
       res = Return 0%Z /\ disk s' !! p = Some c /\
       exists r, last (history s') = Some r /\
         status r = status_fail /\ message r = m) s.
Proof.
  intros Hw Hc Hcap Hu ->. destruct (tests_of_capable p Hcap) as [Ht1 Ht2].
  destruct s as [d h l v w]. unfold report_written in Hw.
  simpl in Hw, Hc |- *.
  run_pipeline.
  all: try (exfalso; rewrite Hw in *; [discriminate|assumption]).
  all: path_facts e p; its_record.
  all: split; [reflexivity|]; split; [disk_lookup; assumption|].
  all: eexists; split; [reflexivity|]; cbn; repeat split.
Qed.

Lemma unknown_family_reported e p b gen eng s c g :
  report_written e gen s -> disk s !! p = Some c ->
  classify p = MacroCapable ->
  unzip (extract_fault e) c = inr g ->
  detect_doc_type g = None ->
  wp (clean_vba_macro e p b gen eng)
    (fun s' res =>
       res = Return 0%Z /\ disk s' !! p = Some c /\
       exists r, last (history s') = Some r /\
         status r = status_fail /\ message r = msg_unknown_doc_type) s.
Proof.
  intros Hw Hc Hcap Hu Hd. destruct (tests_of_capable p Hcap) as [Ht1 Ht2].
  destruct s as [d h l v w]. unfold report_written in Hw.
  simpl in Hw, Hc |- *.
  run_pipeline.
  all: try (exfalso; rewrite Hw in *; [discriminate|assumption]).
  all: path_facts e p; its_record.
  all: split; [reflexivity|]; split; [disk_lookup; assumption|].
  all: eexists; split; [reflexivity|]; cbn; repeat split.
Qed.



(** ** The sanitizer deletes, never inserts *)

Section SanitizerDeletes.
Import Manifest.

Lemma sub_decl_sublist (p : list N) : forall (s : list N) (skip : nat),
  sublist (sub_decl p skip s) s.
Proof.
  induction s as [|c s IH]; intros skip; [constructor|].
  cbn [sub_decl]. destruct skip as [|k]; [|apply sublist_cons, IH].
  destruct (starts_with p (c :: s)).
  - destruct (find_close (drop (length p) (c :: s)));
      [apply sublist_cons, IH | reflexivity].
  - apply sublist_skip, IH.
Qed.

Lemma remove_declarations_sublist (s : list N) :
  sublist (remove_declarations s) s.
Proof.
  unfold remove_declarations. generalize patterns. intros ps. revert s.
  induction ps as [|p ps IH]; intros s; simpl; [reflexivity|].
  etransitivity; [apply IH | apply sub_decl_sublist].
Qed.

Lemma collapse_blank_sublist : forall (s : list N) (skip : nat),
  sublist (collapse_blank skip s) s.
Proof.
  induction s as [|c s IH]; intros skip; [constructor|].
  cbn [collapse_blank]. destruct skip as [|k]; [|apply sublist_cons, IH].
  destruct (c =? 10)%N eqn:Hc; [|apply sublist_skip, IH].
  apply N.eqb_eq in Hc as ->.
  destruct (last_newline_in_run s); apply sublist_skip, IH.
Qed.

End SanitizerDeletes.

(** X13.  The manifest sanitizer only deletes: its result is a
    subsequence of the text read (after newline translation), it contains
    no carriage return, and no newline in it is followed by a blank
    line. *)
Theorem sanitize_only_deletes (raw : list N) :
  sublist (Manifest.sanitize raw) (Manifest.universal_newlines raw) /\
  Manifest.no_cr (Manifest.sanitize raw) /\
  Manifest.settled (Manifest.sanitize raw).
Proof.
  split; [|split].
  - unfold Manifest.sanitize.
    etransitivity; [apply collapse_blank_sublist | apply remove_declarations_sublist].
  - apply sanitize_no_cr.
  - apply collapse_blank_settled.
Qed.

(** ** The extractor *)

Section Extractor.

Lemma truthy_text (v : option pyval) : truthy v = true -> as_text v <> [].
Proof. destruct v as [[[|]|[|]]|]; simpl; congruence. Qed.

Lemma truthy_texts (vs : list (option pyval)) :
  Forall (fun c : list N => c <> [])
    (map as_text (filter (fun v => truthy v = true) vs)).
Proof.
  apply Forall_forall. intros c Hc.
  apply list_elem_of_In, in_map_iff in Hc as (v & <- & Hv).
  apply list_elem_of_In, list_elem_of_filter in Hv as [Hv _].
  now apply truthy_text.
Qed.

End Extractor.

(** X14.  [_extract_vba_from_parser] fails exactly when
    [extract_macros] fails (an error of [get_vba_code_all_modules] is
    swallowed), and no code text it returns is empty. *)
Theorem parser_code_is_never_empty (p : parser) :
  (forall err, _extract_vba_from_parser p = inl err <-> extract_macros p = inl err) /\
  (forall out, _extract_vba_from_parser p = inr out ->
               Forall (fun c : list N => c <> []) out).
Proof.
  unfold _extract_vba_from_parser.
  destruct (extract_macros p) as [err0|tuples].
  { split; [intros err; split; intros [= ->]; reflexivity | discriminate]. }
  split; [intros err; split; discriminate|]. intros out [= <-].
  pose proof (truthy_texts tuples) as H1.
  pose proof (truthy_texts (map module_code (concat (map modules (vba_projects p)))))
    as H2.
  destruct (map as_text (filter (fun v => truthy v = true) tuples)) as [|c0 out0];
    [|exact H1].
  destruct (get_vba_code_all_modules p) as [[err|all_code]|]; try exact H2.
  destruct (truthy all_code) eqn:Ht; [|exact H2].
  repeat constructor. now apply truthy_text.
Qed.

(** X15.  The extractor and the cleaner agree on the stream of an
    archive whose member names are normal: whenever the cleaner finds a
    stream file under the family it detected, the first of
    [_VBA_BIN_PATHS] present in the archive, which is the stream the
    fallback of [_extract_vba_code] parses, is that very stream. *)
Theorem fallback_reads_the_detected_stream (fault : option string)
    (ms : list (list string * entry)) (g : gmap (list string) node)
    (dt : doc_type) (d : fdata) :
  normal_names ms ->
  unzip fault (Archive ms) = inr g ->
  detect_doc_type g = Some dt ->
  g !! vba_paths dt = Some (File d) ->
  first_stream ms = Some (vba_paths dt, d).
Proof.
  intros Hn Hu Hd Hg.
  pose proof (unzip_well_formed _ _ _ Hu) as [Hwf _].
  assert (Hnone : forall dt', exists_in g [hd EmptyString (vba_paths dt')] = false ->
                    zip_read (vba_paths dt') ms = None).
  { intros dt' Hno. rewrite <- (zip_at_normal _ _ Hn), (unzip_read_as _ _ _ _ Hu).
    destruct (g !! vba_paths dt') as [[d'|]|] eqn:E; try reflexivity.
    exfalso. unfold exists_in in Hno. apply bool_decide_eq_false in Hno.
    apply Hno. exists Folder. apply (Hwf _ _ _ E).
    destruct dt'; simpl; right; left. }
  assert (Hread : zip_read (vba_paths dt) ms = Some d)
    by (now rewrite <- (zip_at_normal _ _ Hn), (unzip_read_as _ _ _ _ Hu), Hg).
  unfold detect_doc_type in Hd. unfold first_stream, _VBA_BIN_PATHS.
  destruct (exists_in g ["word"]) eqn:E1.
  { injection Hd as <-. cbn [list_find]. simpl in Hread.
    rewrite decide_True by (rewrite Hread; eauto). simpl. now rewrite Hread. }
  pose proof (Hnone word E1) as N1. simpl in N1.
  destruct (exists_in g ["xl"]) eqn:E2.
  { injection Hd as <-. cbn [list_find]. simpl in Hread.
    rewrite decide_False by (rewrite N1; apply is_Some_None).
    rewrite decide_True by (rewrite Hread; eauto). simpl. now rewrite Hread. }
  pose proof (Hnone excel E2) as N2. simpl in N2.
  destruct (exists_in g ["ppt"]) eqn:E3; [|discriminate].
  injection Hd as <-. cbn [list_find]. simpl in Hread.
  rewrite decide_False by (rewrite N1; apply is_Some_None).
  rewrite decide_False by (rewrite N2; apply is_Some_None).
  rewrite decide_True by (rewrite Hread; eauto). simpl. now rewrite Hread.
Qed.

Lemma fallback_reads_the_detected_stream_witness :
  normal_names Sample.members /\
  unzip None (Archive Sample.members) = inr Sample.unpacked /\
  detect_doc_type Sample.unpacked = Some word /\
  Sample.unpacked !! vba_paths word = Some (File Sample.stream) /\
  first_stream Sample.members = Some (vba_paths word, Sample.stream).
Proof.
  assert (H1 : normal_names Sample.members) by (repeat constructor).
  assert (H2 : detect_doc_type Sample.unpacked = Some word)
    by (vm_compute; reflexivity).
  assert (H3 : Sample.unpacked !! vba_paths word = Some (File Sample.stream))
    by (vm_compute; reflexivity).
  split; [exact H1|]. split; [exact sample_unpacks|].
  split; [exact H2|]. split; [exact H3|].
  exact (fallback_reads_the_detected_stream None Sample.members Sample.unpacked
           word Sample.stream H1 sample_unpacks H2 H3).
Defined.

(** Without normal names they need not agree: the cleaner removes the
    stream of the dotted document, the fallback finds no stream in it. *)
Example dotted_stream_not_parsed :
  first_stream Dotted.members = None /\
  zip_at (vba_paths word) Dotted.members = Some Sample.stream.
Proof. vm_compute. split; reflexivity. Qed.

(** ** The folder scanner *)

Section Scanner.
Import PyStr.

Lemma rfind_dot_spec (s : string) : forall i,
  rfind_dot s = Some i ->
  exists rest, drop i s = String "." rest /\
               String.length s = (i + 1 + String.length rest)%nat.
Proof.
  induction s as [|c s IH]; intros i; simpl; [discriminate|].
  destruct (rfind_dot s) as [j|] eqn:E.
  - intros [= <-]. destruct (IH j eq_refl) as (rest & Hd & Hl).
    exists rest. simpl. split; [exact Hd | lia].
  - destruct (Ascii.eqb c ".") eqn:Hc; [|discriminate]. intros [= <-].
    apply Ascii.eqb_eq in Hc as ->. exists s. simpl. split; [reflexivity | lia].
Qed.

Lemma all_dots_take_0 (s : string) : all_dots (take 0 s) = true.
Proof. destruct s; reflexivity. Qed.

(** The extension [os.path.splitext] finds is the suffix [pathlib] finds,
    or it is empty or a lone dot. *)
Lemma splitext_suffix (nm : string) :
  snd (splitext nm) = suffix_of nm \/
  snd (splitext nm) = EmptyString \/ snd (splitext nm) = ".".
Proof.
  unfold splitext, suffix_of.
  destruct (rfind_dot nm) as [i|] eqn:E; [|right; left; reflexivity].
  destruct (all_dots (take i nm)) eqn:Hd; [right; left; reflexivity|].
  simpl. destruct (rfind_dot_spec nm i E) as (rest & Hdrop & Hlen).
  destruct i as [|i]; [now rewrite all_dots_take_0 in Hd|].
  destruct rest as [|c rest].
  - right; right. exact Hdrop.
  - left. simpl in Hlen.
    replace (0 <? S i)%nat with true by (symmetry; apply Nat.ltb_lt; lia).
    replace (S i <? String.length nm - 1)%nat with true
      by (symmetry; apply Nat.ltb_lt; lia).
    reflexivity.
Qed.

Lemma suffix_splitext (nm : string) :
  suffix_of nm <> EmptyString -> all_dots (stem_of nm) = false ->
  snd (splitext nm) = suffix_of nm.
Proof.
  unfold splitext, suffix_of, stem_of.
  destruct (rfind_dot nm) as [i|]; [|congruence].
  destruct ((0 <? i)%nat && (i <? String.length nm - 1)%nat); [|congruence].
  intros _ ->. reflexivity.
Qed.

End Scanner.

Lemma scan_keeps_supported (d nm : string) :
  scan_keeps nm = true -> classify (Path d nm) <> Unsupported.
Proof.
  unfold scan_keeps. intros H.
  destruct (splitext_suffix nm) as [E|[E|E]]; rewrite E in H;
    try (vm_compute in H; discriminate).
  unfold classify, suffix; simpl.
  apply py_in_spec in H. simpl in H.
  repeat (destruct H as [<-|H]; [vm_compute; discriminate|]).
  contradiction.
Qed.

Lemma capable_scan_keeps (d nm : string) :
  classify (Path d nm) = MacroCapable ->
  all_dots (stem_of nm) = false ->
  scan_keeps nm = true.
Proof.
  intros Hc Hd. destruct (tests_of_capable _ Hc) as [_ Hs].
  apply negb_false_iff, py_in_spec in Hs. unfold suffix in Hs; simpl in Hs.
  unfold scan_keeps. rewrite suffix_splitext; [|intros E; rewrite E in Hs|exact Hd].
  - simpl in Hs. repeat (destruct Hs as [<-|Hs]; [reflexivity|]). contradiction.
  - simpl in Hs. repeat (destruct Hs as [Hs|Hs]; [discriminate|]). contradiction.
Qed.

Lemma scan_run_spec (walk : list (string * list string)) (p : path) :
  In p (ScanFolderWorker_run walk) <->
  exists names, In (parent p, names) walk /\ In (name p) names /\
                scan_keeps (name p) = true.
Proof.
  unfold ScanFolderWorker_run. rewrite in_flat_map. split.
  - intros ([d names] & Hin & Hp). simpl in Hp.
    apply in_map_iff in Hp as (nm & <- & Hnm).
    apply filter_In in Hnm as [Hnm Hk]. simpl. eauto.
  - intros (names & Hin & Hnm & Hk). exists (parent p, names).
    split; [exact Hin|]. simpl. apply in_map_iff. exists (name p).
    split; [now destruct p|]. now apply filter_In.
Qed.

Lemma classify_by_name (p q : path) : name p = name q -> classify p = classify q.
Proof. unfold classify, suffix. now intros ->. Qed.

(** X16.  Every path the folder scanner collects comes from a file name
    of the walk, and, provided it is not a symbolic link to a file of
    another name ([resolve] keeps its name), the cleaner does not reject
    it as an unsupported format: its extension is macro-capable or
    macro-incapable.  [resolve] is [Path(file_path).resolve()], by which
    [clean_vba_macro] begins: the path with its symbolic links followed. *)
Theorem scanned_files_are_supported (resolve : path -> path)
    (walk : list (string * list string)) (p : path) :
  In p (ScanFolderWorker_run walk) ->
  name (resolve p) = name p ->
  classify (resolve p) <> Unsupported /\
  exists names, In (parent p, names) walk /\ In (name p) names.
Proof.
  intros H Hr. apply scan_run_spec in H as (names & Hin & Hnm & Hk). split.
  - rewrite (classify_by_name _ _ Hr).
    destruct p as [d nm]. now apply scan_keeps_supported.
  - eauto.
Qed.

(** X17.  The folder scanner collects every file of the walk that is not
    a symbolic link to a file of another name and that the cleaner
    classifies as macro-capable, provided the name does not consist of
    dots only in front of its extension (on such a name
    [os.path.splitext] finds no extension, whereas [Path.suffix] does). *)
Theorem scanner_finds_macro_files (resolve : path -> path)
    (walk : list (string * list string)) (d nm : string)
    (names : list string) :
  In (d, names) walk -> In nm names ->
  name (resolve (Path d nm)) = nm ->
  classify (resolve (Path d nm)) = MacroCapable ->
  all_dots (stem_of nm) = false ->
  In (Path d nm) (ScanFolderWorker_run walk).
Proof.
  intros Hin Hnm Hr Hc Hd. apply scan_run_spec. exists names. simpl.
  split; [exact Hin|]. split; [exact Hnm|].
  apply (capable_scan_keeps d); [|exact Hd].
  rewrite <- Hc. now apply classify_by_name.
Qed.

Lemma scanned_files_are_supported_witness :
  In (Path "/home/u" "Budget.XLSM")
     (ScanFolderWorker_run [("/home/u", ["notes.txt"; "Budget.XLSM"])]) /\
  name (Path "/home/u" "Budget.XLSM") = name (Path "/home/u" "Budget.XLSM") /\
  classify (Path "/home/u" "Budget.XLSM") <> Unsupported.
Proof.
  assert (H : In (Path "/home/u" "Budget.XLSM")
                (ScanFolderWorker_run [("/home/u", ["notes.txt"; "Budget.XLSM"])]))
    by (vm_compute; left; reflexivity).
  split; [exact H|]. split; [reflexivity|].
  exact (proj1 (scanned_files_are_supported (fun p => p) _ _ H eq_refl)).
Defined.

Lemma scanner_finds_macro_files_witness :
  In ("/home/u", ["notes.txt"; "letter.docm"])
     [("/home/u", ["notes.txt"; "letter.docm"])] /\
  In "letter.docm" ["notes.txt"; "letter.docm"] /\
  name (Path "/home/u" "letter.docm") = "letter.docm" /\
  classify (Path "/home/u" "letter.docm") = MacroCapable /\
  all_dots (stem_of "letter.docm") = false /\
  In (Path "/home/u" "letter.docm")
     (ScanFolderWorker_run [("/home/u", ["notes.txt"; "letter.docm"])]).
Proof.
  assert (H1 : In ("/home/u", ["notes.txt"; "letter.docm"])
                 [("/home/u", ["notes.txt"; "letter.docm"])])
    by (simpl; auto).
  assert (H2 : In "letter.docm" ["notes.txt"; "letter.docm"]) by (simpl; auto).
  assert (H3 : classify (Path "/home/u" "letter.docm") = MacroCapable)
    by reflexivity.
  assert (H4 : all_dots (stem_of "letter.docm") = false) by reflexivity.
  split; [exact H1|]. split; [exact H2|]. split; [reflexivity|].
  split; [exact H3|]. split; [exact H4|].
  exact (scanner_finds_macro_files (fun p => p) _ _ _ _ H1 H2 eq_refl H3 H4).
Defined.

(** A name the cleaner would take but the scanner passes over. *)
Example dotted_name_is_skipped :
  classify (Path "/home/u" "..docm") = MacroCapable /\
  scan_keeps "..docm" = false.
Proof. split; reflexivity. Qed.

(** A link [letter.docm] to a file [payload.bin]: the scanner collects
    it, the cleaner, which resolves it first, rejects the format. *)
Example linked_name_is_rejected :
  let resolve := fun p : path =>
    if String.eqb (name p) "letter.docm" then Path (parent p) "payload.bin"
    else p in
  scan_keeps "letter.docm" = true /\
  classify (resolve (Path "/home/u" "letter.docm")) = Unsupported.
Proof. split; reflexivity. Qed.
